(** * Agent state of the agent resource manager

    A shallow embedding of [master/internal/rm/agentrm/agent_state.go]:
    the per-agent aggregate with its slots, its device view, its container
    bookkeeping, the enable/disable/drain switches, allocation and
    deallocation, the snapshot/recovery pair and the reconciliation after
    a restart.

    Conventions of the embedding.
    - Go's [int] is [Z]; the counts computed here are bounded by the sizes
      of maps held in memory, so no wrap-around can occur.
    - A Go [map] is a [gmap]; a loop [for k, v := range m] whose outcome
      does not depend on the iteration order is a [map_fold]; the one loop
      whose outcome does depend on it ([allocateFreeDevices]) takes the
      iteration order as an argument.
    - A [*cproto.ID] is an [option]: the pointee is never written through,
      only compared and replaced.
    - Within one aggregate every [*slot] is reachable from exactly one key
      of [slotStates], so a slot pointer is modelled by that key.  Sharing
      between two aggregates (see [deepCopy]) is modelled by an explicit
      store in [Module Heap].
    - Logging is dropped; a call of [rmevents.Publish] appends to a list of
      events returned next to the new state; writes to the database
      ([persist], [updateContainerState]) are best effort in the source and
      leave the aggregate alone, so they are not part of the state. *)

From stdpp Require Import gmap strings list fin_maps pretty.
From Stdlib Require Import ZArith Lia.

Local Open Scope Z_scope.

(** ** Data model *)

(** Modelled from the spec: the declaration of [device.Device] (package
    [pkg/device]) is not among the sources; a device is a stable device ID
    plus descriptive metadata, compared with [==] as a whole. *)
Record Device := mkDevice {
  ID : Z;
  Brand : string;
  UUID : string;
  Type_ : string
}.

Global Instance Device_eq_dec : EqDecision Device.
Proof. solve_decision. Defined.

Global Instance Device_countable : Countable Device.
Proof.
  refine (inj_countable'
            (fun d => (ID d, Brand d, UUID d, Type_ d))
            (fun t => match t with (i, b, u, k) => mkDevice i b u k end) _).
  by intros [].
Defined.

(** [cproto.ID], [model.AllocationID] and [aproto.ID] are string types. *)
Abbreviation ContainerID := string (only parsing).
Abbreviation AllocationID := string (only parsing).
Abbreviation AgentID := string (only parsing).

(** Modelled from the spec: [cproto.State] and [cproto.Container] are
    declared in [pkg/cproto], not among the sources.  [Unset] is the zero
    value of the state. *)
Inductive State := Unset | Assigned | Starting | Running | Terminated.

Global Instance State_eq_dec : EqDecision State.
Proof. solve_decision. Defined.

Record Container := mkContainer {
  c_ID : ContainerID;
  c_State : State;
  c_Devices : list Device
}.

Global Instance Container_eq_dec : EqDecision Container.
Proof. solve_decision. Defined.

Record slotEnabled := mkSlotEnabled {
  deviceAdded : bool;
  agentEnabled : bool;
  userEnabled : bool;
  se_draining : bool
}.

Global Instance slotEnabled_eq_dec : EqDecision slotEnabled.
Proof. solve_decision. Defined.

Definition slotEnabled_enabled (s : slotEnabled) : bool :=
  agentEnabled s && userEnabled s.

Record slot := mkSlot {
  device : Device;
  s_enabled : slotEnabled;
  containerID : option ContainerID
}.

Global Instance slot_eq_dec : EqDecision slot.
Proof. solve_decision. Defined.

(** The 128-bit value of a [uuid.UUID]. *)
Abbreviation UUIDv := N (only parsing).

Record agentState := mkAgentState {
  id : AgentID;
  Devices : gmap Device (option ContainerID);
  resourcePoolName : string;
  enabled : bool;
  draining : bool;
  uuid : UUIDv;
  maxZeroSlotContainers : Z;
  slotStates : gmap Z slot;
  containerAllocation : gmap ContainerID AllocationID;
  containerState : gmap ContainerID Container
}.

(** Field updates, one per field the code assigns. *)
Definition set_Devices (f : gmap Device (option ContainerID) -> gmap Device (option ContainerID))
    (a : agentState) : agentState :=
  mkAgentState (id a) (f (Devices a)) (resourcePoolName a) (enabled a) (draining a)
    (uuid a) (maxZeroSlotContainers a) (slotStates a) (containerAllocation a)
    (containerState a).

Definition set_slotStates (f : gmap Z slot -> gmap Z slot) (a : agentState) : agentState :=
  mkAgentState (id a) (Devices a) (resourcePoolName a) (enabled a) (draining a)
    (uuid a) (maxZeroSlotContainers a) (f (slotStates a)) (containerAllocation a)
    (containerState a).

Definition set_containerAllocation
    (f : gmap ContainerID AllocationID -> gmap ContainerID AllocationID)
    (a : agentState) : agentState :=
  mkAgentState (id a) (Devices a) (resourcePoolName a) (enabled a) (draining a)
    (uuid a) (maxZeroSlotContainers a) (slotStates a) (f (containerAllocation a))
    (containerState a).

Definition set_containerState
    (f : gmap ContainerID Container -> gmap ContainerID Container)
    (a : agentState) : agentState :=
  mkAgentState (id a) (Devices a) (resourcePoolName a) (enabled a) (draining a)
    (uuid a) (maxZeroSlotContainers a) (slotStates a) (containerAllocation a)
    (f (containerState a)).

Definition set_enabled_draining (e d : bool) (a : agentState) : agentState :=
  mkAgentState (id a) (Devices a) (resourcePoolName a) e d
    (uuid a) (maxZeroSlotContainers a) (slotStates a) (containerAllocation a)
    (containerState a).

Definition set_slot_enabled (f : slotEnabled -> slotEnabled) (s : slot) : slot :=
  mkSlot (device s) (f (s_enabled s)) (containerID s).

Definition set_containerID (c : option ContainerID) (s : slot) : slot :=
  mkSlot (device s) (s_enabled s) c.

Definition set_deviceAdded (b : bool) (e : slotEnabled) : slotEnabled :=
  mkSlotEnabled b (agentEnabled e) (userEnabled e) (se_draining e).

Definition set_userEnabled (b : bool) (e : slotEnabled) : slotEnabled :=
  mkSlotEnabled (deviceAdded e) (agentEnabled e) b (se_draining e).

Definition set_draining (b : bool) (e : slotEnabled) : slotEnabled :=
  mkSlotEnabled (deviceAdded e) (agentEnabled e) (userEnabled e) b.

(** ** Construction and capacity accounting *)

(** [newAgentState]: empty maps, enabled, not draining.  The fresh random
    UUID of [uuid.New()] is an argument. *)
Definition newAgentState (i : AgentID) (maxZeroSlot : Z) (u : UUIDv) : agentState :=
  mkAgentState i ∅ "" true false u maxZeroSlot ∅ ∅ ∅.

(** [numUsedSlots]: the devices of the view with a non-nil occupant. *)
Definition numUsedSlots (a : agentState) : Z :=
  map_fold (fun _ (cid : option ContainerID) slots =>
              if cid is Some _ then slots + 1 else slots) 0 (Devices a).

(** [numSlots]: the [switch] tries [a.draining] first, then [!a.enabled]. *)
Definition numSlots (a : agentState) : Z :=
  if draining a then numUsedSlots a
  else if negb (enabled a) then 0
  else Z.of_nat (size (Devices a)).

Definition numEmptySlots (a : agentState) : Z :=
  if draining a || negb (enabled a) then 0
  else numSlots a - numUsedSlots a.

Definition numUsedZeroSlots (a : agentState) : Z :=
  map_fold (fun _ (c : Container) result =>
              if Nat.eqb (length (c_Devices c)) 0 then result + 1 else result)
           0 (containerState a).

Definition numZeroSlots (a : agentState) : Z :=
  if draining a then numUsedZeroSlots a
  else if negb (enabled a) then 0
  else maxZeroSlotContainers a.

Definition numEmptyZeroSlots (a : agentState) : Z :=
  if draining a || negb (enabled a) then 0
  else numZeroSlots a - numUsedZeroSlots a.

Definition idle (a : agentState) : bool :=
  (numUsedZeroSlots a =? 0) && (numUsedSlots a =? 0).

(** ** Enable, disable, drain *)

Definition enable (a : agentState) : agentState :=
  set_enabled_draining true false a.

(** [disable]: [a.draining = drain; a.enabled = false]. *)
Definition disable (drain : bool) (a : agentState) : agentState :=
  set_enabled_draining false drain a.

Definition addDevice (d : Device) (cid : option ContainerID) (a : agentState) : agentState :=
  set_Devices (insert d cid) a.

Definition removeDevice (d : Device) (a : agentState) : agentState :=
  set_Devices (delete d) a.

(** ** Allocation and deallocation *)

Inductive allocResult :=
  | AllocOk (devices : list Device)
  | NotEnoughDevices.

(** The scan [for d, dcid := range a.Devices] of [allocateFreeDevices]:
    [it] is the order in which the map is visited and [devices] the slice
    built so far; the loop breaks as soon as [len(devices) == slots]. *)
Fixpoint collectFree (slots : Z) (it : list (Device * option ContainerID))
    (devices : list Device) : list Device :=
  match it with
  | [] => devices
  | (d, dcid) :: it' =>
      let devices := if dcid is None then devices ++ [d] else devices in
      if Z.of_nat (length devices) =? slots then devices
      else collectFree slots it' devices
  end.

(** [allocateFreeDevices] for the iteration order [it] of [a.Devices].
    The source calls it with [slots >= 0]; for a negative [slots] the
    [make] of the slice panics, which the model does not render. *)
Definition allocateFreeDevicesIn (it : list (Device * option ContainerID))
    (slots : Z) (cid : ContainerID) (a : agentState) : allocResult * agentState :=
  let a := set_containerState (insert cid (mkContainer cid Unset [])) a in
  if slots =? 0 then (AllocOk [], a)
  else
    let devices := collectFree slots it [] in
    if negb (Z.of_nat (length devices) =? slots) then (NotEnoughDevices, a)
    else
      let a := foldl (fun a d => set_Devices (insert d (Some cid)) a) a devices in
      let a := set_containerState
                 (alter (fun c => mkContainer (c_ID c) (c_State c) devices) cid) a in
      (AllocOk devices, a).

Definition allocateFreeDevices (slots : Z) (cid : ContainerID) (a : agentState)
    : allocResult * agentState :=
  allocateFreeDevicesIn (map_to_list (Devices a)) slots cid a.

Definition deallocateContainer (i : ContainerID) (a : agentState) : agentState :=
  let a := set_containerState (delete i) a in
  map_fold (fun d (cid : option ContainerID) a =>
              match cid with
              | Some c => if bool_decide (c = i) then set_Devices (insert d None) a else a
              | None => a
              end) a (Devices a).

(** ** The slot enablement transition *)

(** What [rmevents.Publish] is called with. *)
Record ReleaseResources := mkRelease {
  rr_allocation : AllocationID;
  Reason : string;
  ForceKill : bool
}.

Global Instance ReleaseResources_eq_dec : EqDecision ReleaseResources.
Proof. solve_decision. Defined.

Definition updateSlotDeviceView (deviceID : Z) (a : agentState)
    : agentState * list ReleaseResources :=
  match slotStates a !! deviceID with
  | None => (a, [])
  | Some s =>
      if slotEnabled_enabled (s_enabled s) && negb (deviceAdded (s_enabled s)) then
        let a := set_slotStates
                   (insert deviceID (set_slot_enabled (set_deviceAdded true) s)) a in
        (addDevice (device s) (containerID s) a, [])
      else if negb (slotEnabled_enabled (s_enabled s)) then
        let a :=
          if negb (se_draining (s_enabled s)) && deviceAdded (s_enabled s) then
            removeDevice (device s)
              (set_slotStates
                 (insert deviceID (set_slot_enabled (set_deviceAdded false) s)) a)
          else a in
        let published :=
          match containerID s with
          | Some c =>
              if negb (se_draining (s_enabled s)) then
                [mkRelease (default "" (containerAllocation a !! c)) "slot disabled" true]
              else []
          | None => []
          end in
        (a, published)
      else (a, [])
  end.

(** [agentStarted]: one fresh slot per reported device, keyed by its ID. *)
Definition agentStarted (devices : list Device) (a : agentState)
    : agentState * list ReleaseResources :=
  foldl (fun (acc : agentState * list ReleaseResources) d =>
           let a := set_slotStates
                      (insert (ID d)
                         (mkSlot d (mkSlotEnabled false true true false) None))
                      (fst acc) in
           let r := updateSlotDeviceView (ID d) a in
           (fst r, snd acc ++ snd r))
        (a, []) devices.

Record SlotSummary := mkSlotSummary {
  ss_ID : string;
  ss_Device : Device;
  ss_Enabled : bool;
  ss_Container : option Container;
  ss_Draining : bool
}.

(** [getSlotSummary] dereferences [a.slotStates[deviceID]] without a check:
    [None] stands for the nil dereference. *)
Definition getSlotSummary (deviceID : Z) (a : agentState) : option SlotSummary :=
  s ← slotStates a !! deviceID;
  Some (mkSlotSummary (pretty (ID (device s))) (device s)
          (slotEnabled_enabled (s_enabled s))
          (c ← containerID s; containerState a !! c)
          (se_draining (s_enabled s))).

Record patchSlotStateMsg := mkPatch {
  p_id : Z;
  p_enabled : option bool;
  p_drain : option bool
}.

(** [patchSlotStateInner]: the argument [slotState *slot] is the slot held
    under key [k]. *)
Definition patchSlotStateInner (msg : patchSlotStateMsg) (k : Z) (a : agentState)
    : option (SlotSummary * agentState * list ReleaseResources) :=
  s ← slotStates a !! k;
  let s := if p_enabled msg is Some e then set_slot_enabled (set_userEnabled e) s else s in
  let s := if p_drain msg is Some d then set_slot_enabled (set_draining d) s else s in
  let a := set_slotStates (insert k s) a in
  let r := updateSlotDeviceView (ID (device s)) a in
  summary ← getSlotSummary (ID (device s)) (fst r);
  Some (summary, fst r, snd r).

Inductive patchError := SlotNotFound (deviceID : Z).

Definition patchSlotState (msg : patchSlotStateMsg) (a : agentState)
    : option (sum patchError SlotSummary * agentState * list ReleaseResources) :=
  match slotStates a !! p_id msg with
  | None => Some (inl (SlotNotFound (p_id msg)), a, [])
  | Some _ =>
      r ← patchSlotStateInner msg (p_id msg) a;
      Some (inr (fst (fst r)), snd (fst r), snd r)
  end.

(** The message of [patchAllSlotsState]. *)
Record patchAllSlotsStateMsg := mkPatchAll {
  pa_enabled : option bool;
  pa_drain : option bool
}.

(** [patchAllSlotsState] for the order [it] in which the keys of
    [a.slotStates] are visited: each slot is patched with the flags of
    the message and its summary is filed under the ID it carries.  [None]
    stands for the nil dereference in [getSlotSummary]. *)
Definition patchAllSlotsStateIn (it : list Z) (msg : patchAllSlotsStateMsg)
    (a : agentState)
    : option (gmap string SlotSummary * agentState * list ReleaseResources) :=
  foldl (fun acc k =>
           st ← acc;
           slotState ← slotStates (snd (fst st)) !! k;
           r ← patchSlotStateInner
                 (mkPatch (ID (device slotState)) (pa_enabled msg) (pa_drain msg))
                 k (snd (fst st));
           Some (<[ss_ID (fst (fst r)) := fst (fst r)]> (fst (fst st)),
                 snd (fst r), snd st ++ snd r))
        (Some (∅, a, [])) it.

Definition patchAllSlotsState (msg : patchAllSlotsStateMsg) (a : agentState)
    : option (gmap string SlotSummary * agentState * list ReleaseResources) :=
  patchAllSlotsStateIn (map_to_list (slotStates a)).*1 msg a.

(** [getSlotsSummary]: one summary per key of [a.slotStates], under the
    address [baseAddress/slots/<key>]. *)
Definition getSlotsSummary (baseAddress : string) (a : agentState)
    : option (gmap string SlotSummary) :=
  map_fold (fun deviceID (_ : slot) (acc : option (gmap string SlotSummary)) =>
              summary ← acc;
              s ← getSlotSummary deviceID a;
              Some (<[baseAddress +:+ "/slots/" +:+ pretty deviceID := s]> summary))
           (Some ∅) (slotStates a).

(** ** Container events *)

Definition containerStateChanged (c : Container) (a : agentState) : agentState :=
  let a :=
    foldl (fun a d =>
             match slotStates a !! ID d with
             | None => a
             | Some s =>
                 let s := set_containerID (Some (c_ID c)) s in
                 let s := if bool_decide (c_State c = Terminated)
                          then set_containerID None s else s in
                 set_slotStates (insert (ID d) s) a
             end) a (c_Devices c) in
  let a := set_containerState (insert (c_ID c) c) a in
  if bool_decide (c_State c = Terminated)
  then set_containerState (delete (c_ID c)) a else a.

Record StartTaskContainer := mkStart {
  st_Container : Container;
  st_AllocationID : AllocationID
}.

Inductive startCause := CantFindSlot | SlotNotEnabled | AlreadyAllocated.

(** The error of [startContainer]: the cause wrapped with the device ID. *)
Record startError := mkStartError { se_cause : startCause; se_device : Z }.

(** The closure [inner] of [startContainer]. *)
Definition startContainer_inner (c : Container) (deviceId : Z) (a : agentState)
    : option startCause * agentState :=
  match slotStates a !! deviceId with
  | None => (Some CantFindSlot, a)
  | Some s =>
      if negb (slotEnabled_enabled (s_enabled s)) then (Some SlotNotEnabled, a)
      else if containerID s is Some _ then (Some AlreadyAllocated, a)
      else
        let a := set_slotStates (insert deviceId (set_containerID (Some (c_ID c)) s)) a in
        (None, set_containerState (insert (c_ID c) c) a)
  end.

(** The loop over [msg.StartContainer.Container.Devices]: it returns at the
    first device for which [inner] fails. *)
Fixpoint startContainer_loop (c : Container) (devices : list Device) (a : agentState)
    : option startError * agentState :=
  match devices with
  | [] => (None, a)
  | d :: devices' =>
      match startContainer_inner c (ID d) a with
      | (Some cause, a') => (Some (mkStartError cause (ID d)), a')
      | (None, a') => startContainer_loop c devices' a'
      end
  end.

Definition startContainer (msg : StartTaskContainer) (a : agentState)
    : option startError * agentState :=
  match startContainer_loop (st_Container msg) (c_Devices (st_Container msg)) a with
  | (Some e, a') => (Some e, a')
  | (None, a') =>
      (None, set_containerAllocation
               (insert (c_ID (st_Container msg)) (st_AllocationID msg)) a')
  end.

(** ** Validation of a reconnecting agent *)

Inductive matchError :=
  | DeviceCountChanged (ours theirs : nat)
  | DevicePropertiesChanged
  | DevicesChanged.

(** The zero value of [device.Device], which [theirDevices[k]] yields for a
    missing key. *)
Definition zeroDevice : Device := mkDevice 0 "" "" "".

Definition ourDevices (a : agentState) : gmap Z Device :=
  map_fold (fun did (s : slot) (m : gmap Z Device) => <[did := device s]> m)
           ∅ (slotStates a).

Definition theirDevices (devices : list Device) : gmap Z Device :=
  foldl (fun (m : gmap Z Device) d => <[ID d := d]> m) ∅ devices.

(** [checkAgentStartedDevicesMatch] reads the aggregate and assigns nothing
    in it; the state is returned next to the error to make that a
    statement about the function. *)
Definition checkAgentStartedDevicesMatch (devices : list Device) (a : agentState)
    : option matchError * agentState :=
  let ours := ourDevices a in
  let theirs := theirDevices devices in
  if negb (Nat.eqb (size ours) (size theirs)) then
    (Some (DeviceCountChanged (size ours) (size theirs)), a)
  else if negb (bool_decide (ours = theirs)) then
    if map_fold (fun k (d : Device) (found : bool) =>
                   found || negb (bool_decide (d = default zeroDevice (theirs !! k))))
                false ours
    then (Some DevicePropertiesChanged, a)
    else (Some DevicesChanged, a)
  else (None, a).

Definition checkAgentResourcePoolMatch (pool : string) (a : agentState) : bool :=
  bool_decide (resourcePoolName a = pool).

(** ** Snapshot, recovery, reconciliation *)

Record slotData := mkSlotData {
  sd_Device : Device;
  sd_UserEnabled : bool;
  sd_ContainerID : option ContainerID
}.

Record agentSnapshot := mkAgentSnapshot {
  as_AgentID : AgentID;
  as_UUID : string;
  as_ResourcePoolName : string;
  as_UserEnabled : bool;
  as_UserDraining : bool;
  as_MaxZeroSlotContainers : Z;
  as_Slots : list slotData;
  as_Containers : list ContainerID
}.

(** [clearUnlessRecovered].  Only the keys of [recovered] are looked at.
    [None] stands for the nil dereference of [a.slotStates[d.ID]] in the
    first loop; the boolean is [updated], that is whether [persist] is
    called. *)
Definition clearDevices {A} (recovered : gmap ContainerID A) (a : agentState)
    : option (agentState * bool) :=
  map_fold (fun d (_ : option ContainerID) (acc : option (agentState * bool)) =>
              st ← acc;
              match Devices (fst st) !! d with
              | Some (Some cID) =>
                  match recovered !! cID with
                  | Some _ => Some st
                  | None =>
                      s ← slotStates (fst st) !! ID d;
                      Some (set_slotStates (insert (ID d) (set_containerID None s))
                              (set_Devices (insert d None) (fst st)), true)
                  end
              | _ => Some st
              end) (Some (a, false)) (Devices a).

Definition clearSlots {A} (recovered : gmap ContainerID A) (st : agentState * bool)
    : agentState * bool :=
  map_fold (fun k (_ : slot) (st : agentState * bool) =>
              match slotStates (fst st) !! k with
              | Some s =>
                  match containerID s with
                  | Some c =>
                      match recovered !! c with
                      | Some _ => st
                      | None => (set_slotStates (insert k (set_containerID None s)) (fst st),
                                 true)
                      end
                  | None => st
                  end
              | None => st
              end) st (slotStates (fst st)).

Definition clearContainers {A} (recovered : gmap ContainerID A) (st : agentState * bool)
    : agentState * bool :=
  map_fold (fun cid (_ : Container) (st : agentState * bool) =>
              match recovered !! cid with
              | Some _ => st
              | None => (set_containerState (delete cid) (fst st), true)
              end) st (containerState (fst st)).

Definition clearAllocations {A} (recovered : gmap ContainerID A) (st : agentState * bool)
    : agentState * bool :=
  map_fold (fun cid (_ : AllocationID) (st : agentState * bool) =>
              match recovered !! cid with
              | Some _ => st
              | None => (set_containerAllocation (delete cid) (fst st), true)
              end) st (containerAllocation (fst st)).

Definition clearUnlessRecovered {A} (recovered : gmap ContainerID A) (a : agentState)
    : option (agentState * bool) :=
  st ← clearDevices recovered a;
  Some (clearAllocations recovered (clearContainers recovered (clearSlots recovered st))).

(** [deepCopy] seen as a value: the fields it copies, and the zero value
    for those it leaves out ([uuid], [containerAllocation]).  What the copy
    shares with the original is the subject of [Module Heap]. *)
Definition deepCopy (a : agentState) : agentState :=
  mkAgentState (id a) (Devices a) (resourcePoolName a) (enabled a) (draining a)
    0%N (maxZeroSlotContainers a) (slotStates a) ∅ (containerState a).

Section Persistence.

(** [uuid.UUID.String] and [uuid.Parse] of [github.com/google/uuid]. *)
Variable uuid_String : UUIDv -> string.
Variable uuid_Parse : string -> option UUIDv.

(** Modelled from the spec: [containerSnapshot] and its [ToContainer]
    are declared outside the sources; a stored row carries the
    container's ID, state and occupied devices, and [stored] is the
    table the recovery selects from. *)
Variable stored : list Container.

Definition snapshot (a : agentState) : agentSnapshot :=
  let slots :=
    map_fold (fun _ (slotState : slot) (slots : list slotData) =>
                slots ++ [mkSlotData (device slotState)
                            (userEnabled (s_enabled slotState))
                            (containerID slotState)])
             [] (slotStates a) in
  let containerIds := (map_to_list (containerState a)).*1 in
  mkAgentSnapshot (id a) (uuid_String (uuid a)) (resourcePoolName a)
    (enabled a) (draining a) (maxZeroSlotContainers a) slots containerIds.

(** The rows with [container_id IN (as.Containers)].  The select is taken
    to succeed; a failing select makes the recovery return its error. *)
Definition selectContainers (ids : list ContainerID) : list Container :=
  filter (fun c => c_ID c ∈ ids) stored.

Definition newAgentStateFromSnapshot (s : agentSnapshot) : option agentState :=
  parsedUUID ← uuid_Parse (as_UUID s);
  let '(slotStates, devices) :=
    foldl (fun (acc : gmap Z slot * gmap Device (option ContainerID)) sd =>
             (<[ID (sd_Device sd) :=
                  mkSlot (sd_Device sd)
                    (mkSlotEnabled true (as_UserEnabled s) (as_UserEnabled s)
                       (as_UserDraining s))
                    (sd_ContainerID sd)]> (fst acc),
              <[sd_Device sd := sd_ContainerID sd]> (snd acc)))
          (∅, ∅) (as_Slots s) in
  let containerState :=
    if Nat.ltb 0 (length (as_Containers s)) then
      foldl (fun (m : gmap ContainerID Container) c => <[c_ID c := c]> m)
            ∅ (selectContainers (as_Containers s))
    else ∅ in
  Some (mkAgentState (as_AgentID s) devices (as_ResourcePoolName s)
          (as_UserEnabled s) (as_UserDraining s) parsedUUID
          (as_MaxZeroSlotContainers s) slotStates ∅ containerState).

End Persistence.

(** * Vocabulary of the properties, and concrete inputs *)

(** The agent states built from a fresh one by [enable] and [disable]. *)
Inductive switched : agentState -> Prop :=
  | switched_new i m u : switched (newAgentState i m u)
  | switched_enable a : switched a -> switched (enable a)
  | switched_disable drain a : switched a -> switched (disable drain a).

(** What [deallocateContainer] does to one occupant. *)
Definition release (i : ContainerID) (o : option ContainerID) : option ContainerID :=
  match o with
  | Some c => if bool_decide (c = i) then None else o
  | None => None
  end.

(** The free devices met along an iteration order. *)
Definition freeIn (it : list (Device * option ContainerID)) : list Device :=
  (filter (fun p : Device * option ContainerID => snd p = None) it).*1.

(** The devices of the view with a nil occupant. *)
Definition freeDevices (a : agentState) : list Device :=
  freeIn (map_to_list (Devices a)).

(** The part of the aggregate that [startContainer] never assigns before
    it has run through all requested devices. *)
Definition outsideSlotsAndRecords (a : agentState) :=
  (id a, Devices a, resourcePoolName a, enabled a, draining a, uuid a,
   maxZeroSlotContainers a, containerAllocation a).

(** A concrete device. *)
Definition gpu (i : Z) : Device := mkDevice i "nvidia" "GPU" "cuda".

(** An agent that reported one device, and a request for that device and
    for one the agent does not have. *)
Definition oneGpuAgent : agentState :=
  fst (agentStarted [gpu 0] (newAgentState "agent" 0 7%N)).


(** Every slot is kept under the ID of its device, as [agentStarted] and
    [newAgentStateFromSnapshot] file it. *)
Definition slotsKeyedByDevice (a : agentState) : Prop :=
  forall k s, slotStates a !! k = Some s -> ID (device s) = k.

(** The device is the device of some slot of the aggregate. *)
Definition knownDevice (a : agentState) (d : Device) : Prop :=
  exists k s, slotStates a !! k = Some s /\ device s = d.

(** What the reconciliation leaves of an occupant: itself when its
    container was recovered, nothing otherwise. *)
Definition keep {A} (recovered : gmap ContainerID A) (o : option ContainerID)
    : option ContainerID :=
  match o with
  | Some c => if recovered !! c is Some _ then o else None
  | None => None
  end.

Definition keepSlot {A} (recovered : gmap ContainerID A) (s : slot) : slot :=
  set_containerID (keep recovered (containerID s)) s.

(** The aggregate in which every occupant of a device or of a slot that was
    not recovered is cleared, every record and every owner entry of a
    container that was not recovered is dropped, and nothing else differs. *)
Definition reconciled {A} (recovered : gmap ContainerID A) (a : agentState) : agentState :=
  mkAgentState (id a) (keep recovered <$> Devices a) (resourcePoolName a)
    (enabled a) (draining a) (uuid a) (maxZeroSlotContainers a)
    (keepSlot recovered <$> slotStates a)
    (filter (fun p => is_Some (recovered !! fst p)) (containerAllocation a))
    (filter (fun p => is_Some (recovered !! fst p)) (containerState a)).

(** Every device of the view that holds a container that was not recovered
    has a slot under its ID, and that slot holds no recovered container. *)
Definition viewAgreesOnLost {A} (recovered : gmap ContainerID A) (a : agentState) : Prop :=
  forall d c, Devices a !! d = Some (Some c) -> recovered !! c = None ->
    exists s, slotStates a !! ID d = Some s /\ keep recovered (containerID s) = None.

(** An agent with one device that [allocateFreeDevices] gave to container
    "c1" in the view, and on which container "c2" was then started: the
    slot holds "c2", the view holds "c1". *)
Definition doublyClaimedAgent : agentState :=
  let a := snd (allocateFreeDevices 1 "c1" oneGpuAgent) in
  snd (startContainer (mkStart (mkContainer "c2" Assigned [gpu 0]) "alloc-2") a).

Definition onlyC2Recovered : gmap ContainerID unit := {[ "c2" := tt ]}.

(** Two descriptions of the device with ID 0. *)
Definition gpuA : Device := mkDevice 0 "nvidia" "GPU-A" "cuda".
Definition gpuB : Device := mkDevice 0 "nvidia" "GPU-B" "cuda".

Definition agentWithGpuB : agentState :=
  fst (agentStarted [gpuB] (newAgentState "agent" 0 7%N)).

(** What [snapshot] stores of a slot. *)
Definition slotDataOf (s : slot) : slotData :=
  mkSlotData (device s) (userEnabled (s_enabled s)) (containerID s).

(** An agent whose only slot was disabled by the operator. *)
Definition userDisabledAgent : agentState :=
  match patchSlotState (mkPatch 0 (Some false) None) oneGpuAgent with
  | Some (_, a, _) => a
  | None => oneGpuAgent
  end.

(** Stand-ins for [uuid.UUID.String] and [uuid.Parse] on the one UUID of
    the examples. *)
Definition exampleString (u : N) : string := pretty u.

Definition exampleParse (s : string) : option N :=
  if decide (s = "7") then Some 7%N else None.

(** The aggregate in memory.  An [*agentState] points to a struct that
    holds its scalar fields by value and its four maps by reference; a
    [*slot] held in a map of slots is shared with whoever holds that map
    of slots, so that a map of slots with its slots is one object of the
    store.  The [*cproto.Container] values of a map of containers are
    only ever installed and removed by the operations above, never
    written through, and are kept by value. *)
Module Heap.

Abbreviation loc := positive (only parsing).

Record agentObj := mkAgentObj {
  o_id : AgentID;
  o_Devices : loc;
  o_resourcePoolName : string;
  o_enabled : bool;
  o_draining : bool;
  o_uuid : N;
  o_maxZeroSlotContainers : Z;
  o_slotStates : loc;
  (** [None] is the nil map. *)
  o_containerAllocation : option loc;
  o_containerState : loc
}.

Record store := mkStore {
  agents : gmap loc agentObj;
  deviceMaps : gmap loc (gmap Device (option ContainerID));
  slotMaps : gmap loc (gmap Z slot);
  allocationMaps : gmap loc (gmap ContainerID AllocationID);
  containerMaps : gmap loc (gmap ContainerID Container)
}.

Definition emptyStore : store := mkStore ∅ ∅ ∅ ∅ ∅.

(** The aggregate that the pointer [p] stands for. *)
Definition load (h : store) (p : loc) : option agentState :=
  o ← agents h !! p;
  D ← deviceMaps h !! o_Devices o;
  S ← slotMaps h !! o_slotStates o;
  CA ← match o_containerAllocation o with
       | Some l => allocationMaps h !! l
       | None => Some ∅
       end;
  CS ← containerMaps h !! o_containerState o;
  Some (mkAgentState (o_id o) D (o_resourcePoolName o) (o_enabled o)
          (o_draining o) (o_uuid o) (o_maxZeroSlotContainers o) S CA CS).

(** What a method with receiver [p] leaves in memory when it takes the
    aggregate to [a]: it assigns the scalar fields of the struct and
    writes into the maps the struct refers to.  Writing an entry into a
    nil map panics ([None]). *)
Definition write (h : store) (p : loc) (a : agentState) : option store :=
  o ← agents h !! p;
  allocations ←
    match o_containerAllocation o with
    | Some l => Some (<[l := containerAllocation a]> (allocationMaps h))
    | None =>
        if decide (containerAllocation a = ∅) then Some (allocationMaps h)
        else None
    end;
  Some (mkStore
          (<[p := mkAgentObj (id a) (o_Devices o) (resourcePoolName a)
                    (enabled a) (draining a) (uuid a)
                    (maxZeroSlotContainers a) (o_slotStates o)
                    (o_containerAllocation o) (o_containerState o)]>
             (agents h))
          (<[o_Devices o := Devices a]> (deviceMaps h))
          (<[o_slotStates o := slotStates a]> (slotMaps h))
          allocations
          (<[o_containerState o := containerState a]> (containerMaps h))).

(** A method of the aggregate, run on the struct at [p]. *)
Definition run (op : agentState -> agentState) (h : store) (p : loc)
    : option store :=
  a ← load h p; write h p (op a).

(** A fresh aggregate in memory, as a struct literal with [make]d maps
    builds it. *)
Definition new (a : agentState) (h : store) : loc * store :=
  let p := fresh (dom (agents h)) in
  let lD := fresh (dom (deviceMaps h)) in
  let lS := fresh (dom (slotMaps h)) in
  let lA := fresh (dom (allocationMaps h)) in
  let lC := fresh (dom (containerMaps h)) in
  (p, mkStore
        (<[p := mkAgentObj (id a) lD (resourcePoolName a) (enabled a)
                  (draining a) (uuid a) (maxZeroSlotContainers a) lS
                  (Some lA) lC]> (agents h))
        (<[lD := Devices a]> (deviceMaps h))
        (<[lS := slotStates a]> (slotMaps h))
        (<[lA := containerAllocation a]> (allocationMaps h))
        (<[lC := containerState a]> (containerMaps h))).

(** [deepCopy]: a new struct; [maps.Clone] makes new maps for [Devices]
    and [containerState]; [slotStates: a.slotStates] copies the
    reference; [uuid] and [containerAllocation] are left at their zero
    values. *)
Definition deepCopy (h : store) (p : loc) : option (loc * store) :=
  o ← agents h !! p;
  D ← deviceMaps h !! o_Devices o;
  CS ← containerMaps h !! o_containerState o;
  let c := fresh (dom (agents h)) in
  let lD := fresh (dom (deviceMaps h)) in
  let lC := fresh (dom (containerMaps h)) in
  Some (c, mkStore
             (<[c := mkAgentObj (o_id o) lD (o_resourcePoolName o) (o_enabled o)
                       (o_draining o) 0%N (o_maxZeroSlotContainers o)
                       (o_slotStates o) None lC]> (agents h))
             (<[lD := D]> (deviceMaps h))
             (slotMaps h)
             (allocationMaps h)
             (<[lC := CS]> (containerMaps h))).

End Heap.

(** The one-device agent in memory, and a report that container "c1" runs
    on its device. *)
Definition liveAgent : positive * Heap.store := Heap.new oneGpuAgent Heap.emptyStore.

Definition c1Running : Container := mkContainer "c1" Running [gpu 0].

(** An agent with one device, in the view and in its slot held by
    container "c1" of allocation "alloc-1". *)
Definition busyAgent : agentState :=
  mkAgentState "agent" {[ gpu 0 := Some "c1" ]} "default" true false 7%N 0
    {[ 0 := mkSlot (gpu 0) (mkSlotEnabled true true true false) (Some "c1") ]}
    {[ "c1" := "alloc-1" ]}
    {[ "c1" := mkContainer "c1" Running [gpu 0] ]}.

(** A fresh agent in memory, and its copy. *)
Definition freshAgent : positive * Heap.store :=
  Heap.new (newAgentState "agent" 0 7%N) Heap.emptyStore.

Definition freshAgentCopy : positive * Heap.store :=
  default (1%positive, Heap.emptyStore)
    (Heap.deepCopy (snd freshAgent) (fst freshAgent)).

Definition freshAgentDrained : Heap.store :=
  default Heap.emptyStore
    (Heap.run (disable true) (snd freshAgentCopy) (fst freshAgent)).

(** The slot that [agentStarted] leaves for a reported device: enabled by
    agent and user, added to the view, not draining, free. *)
Definition freshSlot (d : Device) : slot :=
  mkSlot d (mkSlotEnabled true true true false) None.

(** What [updateSlotDeviceView] does for a slot: the slot it leaves, the
    change of the device view, and what it publishes given the
    container-to-allocation map. *)
Definition settle (s : slot) : slot :=
  if slotEnabled_enabled (s_enabled s) && negb (deviceAdded (s_enabled s))
  then set_slot_enabled (set_deviceAdded true) s
  else if negb (slotEnabled_enabled (s_enabled s)) &&
          negb (se_draining (s_enabled s)) && deviceAdded (s_enabled s)
  then set_slot_enabled (set_deviceAdded false) s
  else s.

Definition settleView (s : slot) (D : gmap Device (option ContainerID))
    : gmap Device (option ContainerID) :=
  if slotEnabled_enabled (s_enabled s) && negb (deviceAdded (s_enabled s))
  then <[device s := containerID s]> D
  else if negb (slotEnabled_enabled (s_enabled s)) &&
          negb (se_draining (s_enabled s)) && deviceAdded (s_enabled s)
  then delete (device s) D
  else D.

Definition settleEvents (owners : gmap ContainerID AllocationID) (s : slot)
    : list ReleaseResources :=
  if negb (slotEnabled_enabled (s_enabled s)) && negb (se_draining (s_enabled s)) then
    match containerID s with
    | Some c => [mkRelease (default "" (owners !! c)) "slot disabled" true]
    | None => []
    end
  else [].

(** The flags of a slot after the assignments of [patchSlotStateInner]. *)
Definition patchFlags (msg : patchSlotStateMsg) (s : slot) : slot :=
  let s := if p_enabled msg is Some e then set_slot_enabled (set_userEnabled e) s else s in
  if p_drain msg is Some d then set_slot_enabled (set_draining d) s else s.

(** The device view agrees with the slots: every slot is kept under the ID
    of its device; the devices of the view are the devices of the slots
    flagged as added; an enabled slot is flagged as added, and a slot that
    is neither enabled nor draining is not. *)
Definition viewInSync (a : agentState) : Prop :=
  slotsKeyedByDevice a /\
  (forall d, is_Some (Devices a !! d) <->
     exists s, slotStates a !! ID d = Some s /\ device s = d /\
               deviceAdded (s_enabled s) = true) /\
  (forall k s, slotStates a !! k = Some s ->
     slotEnabled_enabled (s_enabled s) = true -> deviceAdded (s_enabled s) = true) /\
  (forall k s, slotStates a !! k = Some s ->
     slotEnabled_enabled (s_enabled s) = false -> se_draining (s_enabled s) = false ->
     deviceAdded (s_enabled s) = false).

(** Two aggregates with the same devices in the view and, in every slot,
    the same device and the same flags. *)
Definition sameShape (a a' : agentState) : Prop :=
  dom (Devices a') = dom (Devices a) /\
  forall k, (fun s => (device s, s_enabled s)) <$> slotStates a' !! k =
            (fun s => (device s, s_enabled s)) <$> slotStates a !! k.

(** The aggregates that the operations of this file build from a new
    agent that registered devices with pairwise distinct IDs. *)
Inductive reachable : agentState -> Prop :=
  | reach_started i m u ds :
      NoDup (ID <$> ds) ->
      reachable (fst (agentStarted ds (newAgentState i m u)))
  | reach_patch msg a r :
      reachable a -> patchSlotState msg a = Some r -> reachable (snd (fst r))
  | reach_changed c a :
      reachable a -> reachable (containerStateChanged c a)
  | reach_start msg a :
      reachable a -> reachable (snd (startContainer msg a))
  | reach_allocate it k cid a :
      reachable a -> 0 <= k -> it ≡ₚ map_to_list (Devices a) ->
      reachable (snd (allocateFreeDevicesIn it k cid a))
  | reach_deallocate i a :
      reachable a -> reachable (deallocateContainer i a)
  | reach_enable a :
      reachable a -> reachable (enable a)
  | reach_disable drain a :
      reachable a -> reachable (disable drain a)
  | reach_patch_all it msg a r :
      reachable a -> it ≡ₚ (map_to_list (slotStates a)).*1 ->
      patchAllSlotsStateIn it msg a = Some r -> reachable (snd (fst r))
  | reach_clear (recovered : gmap ContainerID unit) a r :
      reachable a -> clearUnlessRecovered recovered a = Some r -> reachable (fst r).

(** A slot under key [k] that is enabled and holds no container: what
    [startContainer] asks of each requested device. *)
Definition freeEnabledSlot (a : agentState) (k : Z) : Prop :=
  exists s, slotStates a !! k = Some s /\
    slotEnabled_enabled (s_enabled s) = true /\ containerID s = None.

(** The occupant that [containerStateChanged] leaves in the slots of the
    devices of the container. *)
Definition occupantFor (c : Container) : option ContainerID :=
  if bool_decide (c_State c = Terminated) then None else Some (c_ID c).

(** What [patchAllSlotsState] leaves of a slot, the summary it files for
    the slot kept under [k], and what it publishes for it. *)
Definition patchedSlot (msg : patchAllSlotsStateMsg) (s : slot) : slot :=
  settle (patchFlags (mkPatch (ID (device s)) (pa_enabled msg) (pa_drain msg)) s).

Definition patchedSummary (msg : patchAllSlotsStateMsg) (a : agentState)
    (k : Z) (s : slot) : SlotSummary :=
  mkSlotSummary (pretty k) (device s)
    (slotEnabled_enabled (s_enabled (patchedSlot msg s)))
    (c ← containerID s; containerState a !! c)
    (se_draining (s_enabled (patchedSlot msg s))).

Definition patchedEvents (msg : patchAllSlotsStateMsg) (a : agentState) (k : Z)
    : list ReleaseResources :=
  match slotStates a !! k with
  | Some s => settleEvents (containerAllocation a) (patchedSlot msg s)
  | None => []
  end.

(** * Properties *)

(** ** Helper lemmas on folds over maps *)

(** Induction on a map along the order in which [map_fold] visits it. *)
Lemma gmap_fold_ind `{Countable K} {A} (P : gmap K A -> Prop) :
  P ∅ ->
  (forall i x m,
     m !! i = None ->
     (forall B (f : K -> A -> B -> B) b,
        map_fold f b (<[i:=x]> m) = f i x (map_fold f b m)) ->
     P m -> P (<[i:=x]> m)) ->
  forall m, P m.
Proof.
  intros Hemp Hins m.
  induction m as [|i x m Hi Hfirst IH] using map_first_key_ind; [done|].
  apply Hins; [done| |done].
  intros B f b. by apply map_fold_insert_first_key.
Qed.

Lemma set_Devices_set_Devices f g a :
  set_Devices f (set_Devices g a) = set_Devices (fun m => f (g m)) a.
Proof. by destruct a. Qed.

Lemma set_Devices_id a : set_Devices (fun _ => Devices a) a = a.
Proof. by destruct a. Qed.

Lemma set_Devices_ext f g a :
  f (Devices a) = g (Devices a) -> set_Devices f a = set_Devices g a.
Proof. intros Hfg. unfold set_Devices. by rewrite Hfg. Qed.

(** A loop over the view that rewrites the occupant of the visited device
    with [upd] amounts to mapping [upd] over the view. *)
Lemma fold_update_Devices (upd : option ContainerID -> option ContainerID)
    (step : Device -> option ContainerID -> agentState -> agentState) (a : agentState) :
  (forall d o r, Devices r !! d = Some o -> step d o r = set_Devices (insert d (upd o)) r) ->
  map_fold step a (Devices a) = set_Devices (fmap upd) a.
Proof.
  intros Hstep.
  cut (forall m, m ⊆ Devices a ->
         map_fold step a m = set_Devices (fun D => (upd <$> m) ∪ D) a).
  { intros H. rewrite (H (Devices a)) by done. unfold set_Devices. f_equal.
    apply map_eq; intros d. rewrite lookup_union, lookup_fmap.
    by destruct (_ !! d). }
  intros m. induction m as [|d o m Hd Hfold IH] using gmap_fold_ind; intros Hsub.
  - rewrite map_fold_empty, fmap_empty. unfold set_Devices.
    rewrite (left_id_L ∅ (∪)). by destruct a.
  - rewrite Hfold. rewrite IH.
    2:{ etrans; [|exact Hsub]. by apply insert_subseteq. }
    rewrite Hstep.
    + rewrite set_Devices_set_Devices. unfold set_Devices. f_equal.
      by rewrite fmap_insert, insert_union_l.
    + unfold set_Devices; simpl. rewrite lookup_union, lookup_fmap, Hd; simpl.
      rewrite (left_id_L None (∪)).
      eapply lookup_weaken; [|exact Hsub]. apply lookup_insert_eq.
Qed.

(** [numUsedSlots] counts the entries of the view with an occupant. *)
Lemma numUsedSlots_spec a :
  numUsedSlots a =
  Z.of_nat (size (filter (fun p : Device * option ContainerID => is_Some (snd p)) (Devices a))).
Proof.
  unfold numUsedSlots. generalize (Devices a). intros m.
  induction m as [|d o m Hd Hfold IH] using gmap_fold_ind.
  - by rewrite map_fold_empty, map_filter_empty, map_size_empty.
  - rewrite Hfold, IH. destruct o as [c|].
    + rewrite map_filter_insert_True by (simpl; eauto).
      rewrite map_size_insert_None; [lia|].
      by rewrite map_lookup_filter, Hd.
    + rewrite map_filter_insert_False by (simpl; by intros [? ?]).
      by rewrite delete_id.
Qed.

Lemma numUsedSlots_bounds a : 0 <= numUsedSlots a <= Z.of_nat (size (Devices a)).
Proof.
  rewrite numUsedSlots_spec. split; [lia|].
  apply inj_le, map_subseteq_size, map_filter_subseteq.
Qed.

(** ** Capacity accounting *)

(** C3: a disabled agent reports no slots and no empty slots; a draining
    agent reports its used slots as its slots and no empty slot; any other
    agent reports the size of its device view, and as empty slots the
    slots that are not used. *)
Theorem numSlots_by_state (a : agentState) :
  (enabled a = false -> draining a = false ->
     numSlots a = 0 /\ numEmptySlots a = 0) /\
  (draining a = true ->
     numSlots a = numUsedSlots a /\ numEmptySlots a = 0) /\
  (enabled a = true -> draining a = false ->
     numSlots a = Z.of_nat (size (Devices a)) /\
     numEmptySlots a = numSlots a - numUsedSlots a).
Proof.
  unfold numEmptySlots, numSlots.
  split; [|split]; intros; repeat match goal with H : _ = _ |- _ => rewrite H end;
    by simpl.
Qed.

(** ** Enable and disable *)

(** C10: in every state reached from a fresh agent state by [enable] and
    [disable], a draining agent is not enabled; [enable] leaves the agent
    enabled and not draining, whatever it was, so that it reports its
    whole device view again. *)
Theorem draining_implies_not_enabled (a : agentState) :
  switched a ->
  (draining a = true -> enabled a = false) /\
  enabled (enable a) = true /\ draining (enable a) = false /\
  numSlots (enable a) = Z.of_nat (size (Devices a)) /\
  numEmptySlots (enable a) = Z.of_nat (size (Devices a)) - numUsedSlots a.
Proof.
  intros Hs. split; [|by repeat split].
  induction Hs as [i m u | a _ _ | drain a _ _]; simpl; done.
Qed.

(** ** Deallocation *)

Lemma deallocateContainer_eq i a :
  deallocateContainer i a =
  set_Devices (fmap (release i)) (set_containerState (delete i) a).
Proof.
  unfold deallocateContainer.
  change (Devices a) with (Devices (set_containerState (delete i) a)).
  apply (fold_update_Devices (release i)).
  intros d [c|] r Hd; simpl.
  - case_bool_decide; [done|].
    unfold set_Devices. rewrite insert_id by done. by destruct r.
  - unfold set_Devices. rewrite insert_id by done. by destruct r.
Qed.

Lemma release_release i o : release i (release i o) = release i o.
Proof. destruct o as [c|]; simpl; [|done]. case_bool_decide; simpl; [done|]. by rewrite bool_decide_false. Qed.

(** C8: [deallocateContainer] removes the record of the container, clears
    the occupant of exactly the devices it occupied and leaves every other
    device, every other record and the rest of the aggregate as they were;
    doing it twice is doing it once; for a container that the aggregate
    neither tracks nor has on a device it changes nothing. *)
Theorem deallocateContainer_frees_exactly (a : agentState) (i : ContainerID) :
  let a' := deallocateContainer i a in
  containerState a' = delete i (containerState a) /\
  (forall d, Devices a !! d = Some (Some i) -> Devices a' !! d = Some None) /\
  (forall d, Devices a !! d <> Some (Some i) -> Devices a' !! d = Devices a !! d) /\
  slotStates a' = slotStates a /\
  containerAllocation a' = containerAllocation a /\
  (enabled a', draining a') = (enabled a, draining a) /\
  deallocateContainer i a' = a' /\
  (containerState a !! i = None ->
   (forall d, Devices a !! d <> Some (Some i)) ->
   a' = a).
Proof.
  intros a'. subst a'. rewrite !deallocateContainer_eq.
  assert (Hother : forall d, Devices a !! d <> Some (Some i) ->
            (release i <$> Devices a) !! d = Devices a !! d).
  { intros d Hd. rewrite lookup_fmap.
    destruct (Devices a !! d) as [[c|]|] eqn:E; simpl; [|done..].
    case_bool_decide; [by subst|done]. }
  repeat split; simpl; try done.
  - intros d Hd. by rewrite lookup_fmap, Hd; simpl; rewrite bool_decide_true.
  - unfold set_Devices, set_containerState; simpl. f_equal.
    + rewrite <- map_fmap_compose. apply map_fmap_ext.
      intros d o _. apply release_release.
    + apply delete_delete_eq.
  - intros Hc Hd. unfold set_Devices, set_containerState; simpl.
    rewrite delete_id by done.
    replace (release i <$> Devices a) with (Devices a); [by destruct a|].
    apply map_eq; intros d. by rewrite Hother.
Qed.

Example deallocateContainer_example :
  let d0 := mkDevice 0 "nvidia" "GPU-0" "cuda" in
  let d1 := mkDevice 1 "nvidia" "GPU-1" "cuda" in
  let a := mkAgentState "agent" {[ d0 := Some "c1"; d1 := Some "c2" ]} "default"
             true false 7%N 0 ∅ ∅
             {[ "c1" := mkContainer "c1" Running [d0] ]} in
  Devices (deallocateContainer "c1" a) !! d0 = Some None /\
  Devices (deallocateContainer "c1" a) !! d1 = Some (Some "c2") /\
  map_to_list (containerState (deallocateContainer "c1" a)) = [].
Proof. vm_compute. by repeat split. Qed.

(** ** Allocation *)

Lemma collectFree_take slots it devices :
  Z.of_nat (length devices) < slots ->
  collectFree slots it devices =
  devices ++ take (Z.to_nat slots - length devices)%nat (freeIn it).
Proof.
  revert devices. induction it as [|[d [c|]] it IH]; intros devices Hlt; simpl.
  - unfold freeIn. simpl. by rewrite take_nil, app_nil_r.
  - destruct (Z.eqb_spec (Z.of_nat (length devices)) slots) as [E|_]; [lia|].
    rewrite IH by done. unfold freeIn. by rewrite filter_cons_False by done.
  - unfold freeIn. rewrite filter_cons_True by done. simpl. fold (freeIn it).
    destruct (Z.eqb_spec (Z.of_nat (length (devices ++ [d]))) slots) as [E|E];
      rewrite length_app in E; simpl in E.
    + replace (Z.to_nat slots - length devices)%nat with 1%nat by lia.
      simpl. by rewrite take_0.
    + rewrite IH by (rewrite length_app; simpl; lia).
      rewrite length_app; simpl.
      replace (Z.to_nat slots - length devices)%nat
        with (S (Z.to_nat slots - (length devices + 1)))%nat by lia.
      simpl. by rewrite <- app_assoc.
Qed.

Lemma freeIn_perm it it' : it ≡ₚ it' -> freeIn it ≡ₚ freeIn it'.
Proof. intros Hp. unfold freeIn. by rewrite Hp. Qed.

Lemma elem_of_freeIn it d : d ∈ freeIn it <-> (d, None) ∈ it.
Proof.
  unfold freeIn. rewrite list_elem_of_fmap. split.
  - intros [[d' o] [-> [Ho Hin]%list_elem_of_filter]]. simpl in *. by subst.
  - intros Hin. exists (d, None). split; [done|]. by apply list_elem_of_filter.
Qed.

Lemma NoDup_freeIn it : NoDup it.*1 -> NoDup (freeIn it).
Proof.
  unfold freeIn. induction it as [|[d o] it IH]; simpl; [constructor|].
  intros [Hd Hnd]%NoDup_cons. destruct o as [c|].
  - rewrite filter_cons_False by done. by apply IH.
  - rewrite filter_cons_True by done. simpl. apply NoDup_cons. split; [|by apply IH].
    intros Hin. apply Hd. apply list_elem_of_fmap in Hin as [[d' o'] [-> Hin]].
    apply list_elem_of_filter in Hin as [_ Hin].
    apply list_elem_of_fmap. by exists (d', o').
Qed.

Lemma foldl_claim_Devices cid ds a :
  foldl (fun a d => set_Devices (insert d (Some cid)) a) a ds =
  set_Devices (fun D => foldl (fun D d => <[d := Some cid]> D) D ds) a.
Proof.
  revert a. induction ds as [|d ds IH]; intros a; simpl.
  - by destruct a.
  - rewrite IH. by rewrite set_Devices_set_Devices.
Qed.

Lemma lookup_foldl_claim cid ds (D : gmap Device (option ContainerID)) d :
  foldl (fun D d => <[d := Some cid]> D) D ds !! d =
  if decide (d ∈ ds) then Some (Some cid) else D !! d.
Proof.
  revert D. induction ds as [|d' ds IH]; intros D.
  - simpl. destruct (decide (d ∈ [])) as [Hin|_]; [by apply elem_of_nil in Hin|done].
  - simpl. rewrite IH. destruct (decide (d ∈ ds)) as [Hin|Hnin].
    + by rewrite decide_True by (by right).
    + destruct (decide (d = d')) as [->|Hne].
      * rewrite lookup_insert_eq. by rewrite decide_True by (by left).
      * rewrite lookup_insert_ne by done.
        rewrite decide_False; [done|]. by intros [?|?]%elem_of_cons.
Qed.

(** C5: for a positive number of slots, [allocateFreeDevices] registers a
    record for the container whatever happens; with too few free devices
    in the view it fails and the view is as before, the record standing
    with no device; otherwise it picks that many distinct free devices,
    makes the container their occupant, leaves every other device alone,
    puts the picked devices on the record and returns them.  This holds
    for whatever order the view is visited in. *)
Theorem allocateFreeDevices_all_or_nothing
    (a : agentState) (cid : ContainerID) (k : Z)
    (it : list (Device * option ContainerID)) :
  0 < k ->
  it ≡ₚ map_to_list (Devices a) ->
  let r := allocateFreeDevicesIn it k cid a in
  let a' := snd r in
  is_Some (containerState a' !! cid) /\
  (forall c, c <> cid -> containerState a' !! c = containerState a !! c) /\
  slotStates a' = slotStates a /\
  containerAllocation a' = containerAllocation a /\
  (Z.of_nat (length (freeDevices a)) < k ->
     fst r = NotEnoughDevices /\
     Devices a' = Devices a /\
     containerState a' !! cid = Some (mkContainer cid Unset [])) /\
  (k <= Z.of_nat (length (freeDevices a)) ->
     exists ds,
       fst r = AllocOk ds /\
       Z.of_nat (length ds) = k /\ NoDup ds /\
       (forall d, d ∈ ds -> Devices a !! d = Some None) /\
       (forall d, d ∈ ds -> Devices a' !! d = Some (Some cid)) /\
       (forall d, d ∉ ds -> Devices a' !! d = Devices a !! d) /\
       containerState a' !! cid = Some (mkContainer cid Unset ds)).
Proof.
  intros Hk Hperm r a'. subst r a'. unfold allocateFreeDevicesIn.
  destruct (Z.eqb_spec k 0) as [?|_]; [lia|].
  rewrite collectFree_take by (simpl; lia). simpl.
  rewrite Nat.sub_0_r.
  assert (Hlen : length (freeIn it) = length (freeDevices a)).
  { unfold freeDevices. by rewrite (freeIn_perm _ _ Hperm). }
  set (ds := take (Z.to_nat k) (freeIn it)).
  assert (Hds : length ds = Nat.min (Z.to_nat k) (length (freeDevices a))).
  { subst ds. by rewrite length_take, Hlen. }
  destruct (Z.eqb_spec (Z.of_nat (length ds)) k) as [E|E]; simpl.
  - rewrite foldl_claim_Devices; simpl.
    split; [rewrite lookup_alter_eq, lookup_insert_eq; eauto|].
    split; [intros c Hc; by rewrite lookup_alter_ne, lookup_insert_ne by done|].
    do 2 (split; [done|]).
    split; [intros; lia|]. intros _. exists ds.
    split; [done|]. split; [done|].
    split.
    { eapply sublist_NoDup; [|apply sublist_take].
      apply NoDup_freeIn. rewrite Hperm. apply NoDup_fst_map_to_list. }
    split.
    { intros d Hd. apply elem_of_map_to_list. rewrite <- Hperm.
      apply elem_of_freeIn. by apply (subseteq_take (Z.to_nat k)). }
    split; [intros d Hd; by rewrite lookup_foldl_claim, decide_True|].
    split; [intros d Hd; by rewrite lookup_foldl_claim, decide_False|].
    by rewrite lookup_alter_eq, lookup_insert_eq.
  - split; [rewrite lookup_insert_eq; eauto|].
    split; [intros c Hc; by rewrite lookup_insert_ne|].
    do 2 (split; [done|]).
    split; [intros _; by rewrite lookup_insert_eq|].
    intros; lia.
Qed.

(** ** Starting a container *)

Lemma startContainer_inner_error c k a cause a' :
  startContainer_inner c k a = (Some cause, a') -> a' = a.
Proof.
  unfold startContainer_inner. intros H.
  destruct (slotStates a !! k) as [s|]; [|by inversion H].
  destruct (negb _); [by inversion H|].
  destruct (containerID s); by inversion H.
Qed.

Lemma startContainer_inner_ok c k a a' :
  startContainer_inner c k a = (None, a') ->
  exists s, slotStates a !! k = Some s /\
    slotEnabled_enabled (s_enabled s) = true /\ containerID s = None /\
    a' = set_containerState (insert (c_ID c) c)
           (set_slotStates (insert k (set_containerID (Some (c_ID c)) s)) a).
Proof.
  unfold startContainer_inner. intros H.
  destruct (slotStates a !! k) as [s|]; [|by inversion H].
  destruct (slotEnabled_enabled (s_enabled s)) eqn:He; simpl in H; [|by inversion H].
  destruct (containerID s) eqn:Hc; [by inversion H|].
  inversion H; subst. by exists s.
Qed.

(** A failing loop has run through a prefix of the devices and stopped at
    the device the error names. *)
Lemma startContainer_loop_error c ds a e a' :
  startContainer_loop c ds a = (Some e, a') ->
  exists pre d post,
    ds = pre ++ d :: post /\ se_device e = ID d /\
    startContainer_loop c pre a = (None, a') /\
    startContainer_inner c (ID d) a' = (Some (se_cause e), a').
Proof.
  revert a. induction ds as [|d ds IH]; intros a H; simpl in H; [by inversion H|].
  destruct (startContainer_inner c (ID d) a) as [[cause|] a1] eqn:Hin.
  - inversion H; subst. exists [], d, ds. simpl.
    pose proof (startContainer_inner_error _ _ _ _ _ Hin) as ->. by rewrite Hin.
  - destruct (IH _ H) as (pre & d' & post & -> & He & Hpre & Hd').
    exists (d :: pre), d', post. simpl. by rewrite Hin.
Qed.

(** What a loop that ran through [pre] has done. *)
Lemma startContainer_loop_ok c pre a a' :
  startContainer_loop c pre a = (None, a') ->
  outsideSlotsAndRecords a' = outsideSlotsAndRecords a /\
  (forall k, k ∉ ID <$> pre -> slotStates a' !! k = slotStates a !! k) /\
  (forall k, k ∈ ID <$> pre ->
     exists s, slotStates a !! k = Some s /\
       slotEnabled_enabled (s_enabled s) = true /\ containerID s = None /\
       slotStates a' !! k = Some (set_containerID (Some (c_ID c)) s)) /\
  containerState a' =
    (if pre is [] then containerState a else <[c_ID c := c]> (containerState a)).
Proof.
  revert a. induction pre as [|d pre IH]; intros a H; simpl in H.
  - inversion H; subst. repeat split; try done.
    intros k Hk. by apply elem_of_nil in Hk.
  - destruct (startContainer_inner c (ID d) a) as [[cause|] a1] eqn:Hin; [by inversion H|].
    apply startContainer_inner_ok in Hin as (s & Hs & Hen & Hfree & ->).
    destruct (IH _ H) as (Hout & Hother & Hpre & Hrec). clear IH.
    simpl in Hother, Hpre, Hrec.
    assert (Hnotin : ID d ∉ ID <$> pre).
    { intros Hin. destruct (Hpre _ Hin) as (s' & Hs' & _ & Hfree' & _).
      rewrite lookup_insert_eq in Hs'. by inversion Hs'; subst. }
    split; [by rewrite Hout|]. split; [|split].
    + intros k Hk. rewrite fmap_cons in Hk. apply not_elem_of_cons in Hk as [Hne Hk].
      by rewrite Hother, lookup_insert_ne by done.
    + intros k Hk. rewrite fmap_cons in Hk. apply elem_of_cons in Hk as [->|Hk].
      * exists s. by rewrite Hother, lookup_insert_eq by done.
      * destruct (Hpre _ Hk) as (s' & Hs' & Hen' & Hfree' & Hnew).
        destruct (decide (k = ID d)) as [->|Hne]; [done|].
        rewrite lookup_insert_ne in Hs' by done. by exists s'.
    + rewrite Hrec. destruct pre; [done|]. by rewrite insert_insert_eq.
Qed.



(** ** Patching a slot *)

(** C4: take a slot, kept under the ID of its device, that holds a
    container.  Patching it to disabled and not draining publishes exactly
    one release, to the allocation recorded as the owner of the container,
    with reason "slot disabled" and force kill.  Patching it to disabled
    and draining publishes nothing, leaves the device view as it is and
    the container in the slot. *)
Theorem patchSlotState_disable_releases_once
    (a : agentState) (msg : patchSlotStateMsg) (s : slot) (cid : ContainerID) :
  slotStates a !! p_id msg = Some s ->
  ID (device s) = p_id msg ->
  containerID s = Some cid ->
  p_enabled msg = Some false ->
  (default (se_draining (s_enabled s)) (p_drain msg) = false ->
     exists summary a',
       patchSlotState msg a =
         Some (inr summary, a',
               [mkRelease (default "" (containerAllocation a !! cid))
                  "slot disabled" true])) /\
  (default (se_draining (s_enabled s)) (p_drain msg) = true ->
     exists summary a',
       patchSlotState msg a = Some (inr summary, a', []) /\
       Devices a' = Devices a /\
       containerID <$> slotStates a' !! p_id msg = Some (Some cid)).
Proof.
  intros Hs Hid Hc He.
  unfold patchSlotState, patchSlotStateInner. rewrite Hs; simpl. rewrite He.
  destruct s as [dev [added agentE userE dr] c]; simpl in *. subst c.
  destruct (p_drain msg) as [d|]; simpl; rewrite Hid;
    unfold updateSlotDeviceView; simpl; rewrite lookup_insert_eq; simpl;
    unfold slotEnabled_enabled; simpl; rewrite !andb_false_r; simpl.
  - split; intros ->; simpl.
    + destruct added; simpl; unfold getSlotSummary; simpl;
        rewrite ?lookup_insert_eq; simpl; eauto.
    + unfold getSlotSummary; simpl. rewrite lookup_insert_eq; simpl.
      do 2 eexists. split; [done|]. simpl. by rewrite lookup_insert_eq.
  - split; intros ->; simpl.
    + destruct added; simpl; unfold getSlotSummary; simpl;
        rewrite ?lookup_insert_eq; simpl; eauto.
    + unfold getSlotSummary; simpl. rewrite lookup_insert_eq; simpl.
      do 2 eexists. split; [done|]. simpl. by rewrite lookup_insert_eq.
Qed.

(** ** Validation of the reported devices *)

Lemma ourDevices_eq a : ourDevices a = device <$> slotStates a.
Proof.
  unfold ourDevices. generalize (slotStates a). intros m.
  induction m as [|k s m Hk Hfold IH] using gmap_fold_ind.
  - by rewrite map_fold_empty, fmap_empty.
  - by rewrite Hfold, IH, fmap_insert.
Qed.

(** A loop [m[key x] = val x] over a list whose keys are pairwise
    distinct. *)
Lemma lookup_foldl_insert `{Countable K} {V X} (key : X -> K) (val : X -> V)
    (l : list X) (m : gmap K V) k v :
  NoDup (key <$> l) ->
  foldl (fun (m : gmap K V) x => <[key x := val x]> m) m l !! k = Some v <->
  (exists x, x ∈ l /\ key x = k /\ val x = v) \/ ((k ∉ key <$> l) /\ m !! k = Some v).
Proof.
  revert m. induction l as [|x' l IH]; intros m Hnd; simpl.
  - split; [intros Hm; right; split; [apply not_elem_of_nil|done]|].
    intros [(x & Hin & _)|[_ Hm]]; [by apply elem_of_nil in Hin|done].
  - rewrite fmap_cons in Hnd. apply NoDup_cons in Hnd as [Hx' Hnd].
    rewrite IH by done. split.
    + intros [(x & Hin & Hk & Hv)|[Hnin Hm]].
      * left. exists x. split; [by right|done].
      * destruct (decide (key x' = k)) as [<-|Hne].
        -- rewrite lookup_insert_eq in Hm. inversion Hm; subst.
           left. exists x'. split; [by left|done].
        -- rewrite lookup_insert_ne in Hm by done. right. split; [|done].
           by apply not_elem_of_cons.
    + intros [(x & Hin & Hk & Hv)|[Hnin Hm]].
      * apply elem_of_cons in Hin as [->|Hin]; [|left; by exists x].
        right. subst k v. split; [done|]. apply lookup_insert_eq.
      * apply not_elem_of_cons in Hnin as [Hne Hnin].
        right. split; [done|]. by rewrite lookup_insert_ne.
Qed.

Lemma lookup_theirDevices ds k d :
  NoDup (ID <$> ds) -> theirDevices ds !! k = Some d <-> d ∈ ds /\ ID d = k.
Proof.
  intros Hnd. unfold theirDevices.
  rewrite (lookup_foldl_insert ID (fun d => d)) by done.
  rewrite lookup_empty. split.
  - intros [(x & Hin & Hk & <-)|[_ Hm]]; [done|by inversion Hm].
  - intros [Hin Hk]. left. by exists d.
Qed.

(** No error is returned exactly when the two maps by device ID agree. *)
Lemma checkAgentStartedDevicesMatch_None ds a :
  fst (checkAgentStartedDevicesMatch ds a) = None <-> ourDevices a = theirDevices ds.
Proof.
  unfold checkAgentStartedDevicesMatch.
  destruct (Nat.eqb_spec (size (ourDevices a)) (size (theirDevices ds))) as [Hsz|Hsz]; simpl.
  - case_bool_decide as Heq; simpl; [done|].
    destruct (map_fold _ _ _); simpl; split; done.
  - split; [done|]. intros Heq. by rewrite Heq in Hsz.
Qed.

(** C9, as the code has it: when the slots are kept under their device's ID
    and no two reported devices have the same ID, the check fails if and
    only if the reported devices and the devices of the slots are not the
    same set, the failure being a changed count exactly when the numbers
    of devices differ; the aggregate is not modified. *)
Theorem checkAgentStartedDevicesMatch_iff_differ
    (a : agentState) (devices : list Device) :
  slotsKeyedByDevice a ->
  NoDup (ID <$> devices) ->
  let r := checkAgentStartedDevicesMatch devices a in
  (is_Some (fst r) <-> ~ (forall d, d ∈ devices <-> knownDevice a d)) /\
  (fst r = Some (DeviceCountChanged (size (slotStates a)) (length devices)) <->
     size (slotStates a) <> length devices) /\
  snd r = a.
Proof.
  intros Hwf Hnd r.
  assert (Hsame : ourDevices a = theirDevices devices <->
                  forall d, d ∈ devices <-> knownDevice a d).
  { rewrite ourDevices_eq. split.
    - intros Heq d. split.
      + intros Hin. assert (theirDevices devices !! ID d = Some d) as Hd
          by (by apply lookup_theirDevices).
        rewrite <- Heq, lookup_fmap in Hd.
        destruct (slotStates a !! ID d) as [s|] eqn:Hs; inversion Hd; subst.
        by exists (ID (device s)), s.
      + intros (k & s & Hs & <-).
        assert ((device <$> slotStates a) !! k = Some (device s)) as Hd
          by (by rewrite lookup_fmap, Hs).
        rewrite Heq in Hd. by apply lookup_theirDevices in Hd as [? _].
    - intros Hset. apply map_eq; intros k. apply option_eq; intros d.
      rewrite lookup_theirDevices by done. rewrite lookup_fmap. split.
      + destruct (slotStates a !! k) as [s|] eqn:Hs; intros Hd; inversion Hd; subst.
        split; [apply Hset; by exists k, s|by apply Hwf in Hs].
      + intros [Hin <-]. apply Hset in Hin as (k & s & Hs & <-).
        rewrite <- (Hwf _ _ Hs) in Hs. by rewrite Hs. }
  assert (Hlen : size (theirDevices devices) = length devices).
  { rewrite <- (length_fmap ID devices).
    rewrite <- (size_list_to_set (C := gset Z) (ID <$> devices)) by done.
    rewrite <- size_dom. f_equal. apply set_eq; intros k.
    rewrite elem_of_dom, elem_of_list_to_set, list_elem_of_fmap. split.
    - intros [d [Hin Hk]%lookup_theirDevices]; [|done]. by exists d.
    - intros [d [-> Hin]]. exists d. by apply lookup_theirDevices. }
  assert (Hour : size (ourDevices a) = size (slotStates a)).
  { by rewrite ourDevices_eq, map_size_fmap. }
  split; [|split].
  - rewrite <- Hsame, <- checkAgentStartedDevicesMatch_None. fold r.
    destruct (fst r); split; try done.
  - subst r. unfold checkAgentStartedDevicesMatch. rewrite Hour, Hlen.
    destruct (Nat.eqb_spec (size (slotStates a)) (length devices)) as [E|E]; simpl.
    + split; [|intros H; by destruct H].
      destruct (negb _); [destruct (map_fold _ _ _)|]; simpl; done.
    + done.
  - subst r. unfold checkAgentStartedDevicesMatch.
    repeat (destruct (negb _) || destruct (map_fold _ _ _)); done.
Qed.

(** ** Reconciliation after a restart *)

(** A loop over one of the maps of the aggregate that rewrites or deletes
    the visited entry amounts to one [map_imap] over that map. *)
Section fold_field.
Context `{Countable K} {V : Type}.
Variable get : agentState -> gmap K V.
Variable set : (gmap K V -> gmap K V) -> agentState -> agentState.
Hypothesis set_set : forall f g a, set f (set g a) = set (fun m => f (g m)) a.
Hypothesis get_set : forall f a, get (set f a) = f (get a).
Hypothesis set_ext : forall f g a, f (get a) = g (get a) -> set f a = set g a.
Hypothesis set_id : forall a, set (fun m => m) a = a.

Lemma fold_field (upd : K -> V -> option V)
    (step : K -> V -> agentState -> agentState) (a : agentState) :
  (forall k v r, get r !! k = Some v ->
     step k v r = set (partial_alter (fun _ => upd k v) k) r) ->
  map_fold step a (get a) = set (map_imap upd) a.
Proof.
  intros Hstep.
  cut (forall m, m ⊆ get a ->
         map_fold step a m = set (fun M => map_imap upd m ∪ (M ∖ m)) a).
  { intros Hcut. rewrite (Hcut (get a)) by done. apply set_ext.
    apply map_eq; intros k.
    rewrite lookup_union, lookup_difference, map_lookup_imap.
    destruct (get a !! k); simpl; [|done]. by destruct (upd k v). }
  intros m. induction m as [|k v m Hk Hfold IH] using gmap_fold_ind; intros Hsub.
  - rewrite map_fold_empty. rewrite <- (set_id a) at 1. apply set_ext.
    apply map_eq; intros k.
    rewrite lookup_union, lookup_difference, map_lookup_imap, !lookup_empty.
    simpl. by destruct (get a !! k).
  - assert (Hv : get a !! k = Some v).
    { eapply lookup_weaken; [|exact Hsub]. apply lookup_insert_eq. }
    rewrite Hfold, IH by (etrans; [|exact Hsub]; by apply insert_subseteq).
    rewrite Hstep.
    + rewrite set_set. apply set_ext. apply map_eq; intros j.
      rewrite lookup_partial_alter, !lookup_union, !lookup_difference,
        !map_lookup_imap, lookup_insert.
      destruct (decide (k = j)) as [<-|Hne]; [|done].
      simpl. by destruct (upd k v).
    + rewrite get_set, lookup_union, lookup_difference, map_lookup_imap, Hk.
      simpl. by rewrite Hv.
Qed.
End fold_field.

(** The state component of a fold over pairs that never looks at the
    other component. *)
Lemma fst_map_fold `{Countable K} {V B C}
    (step : K -> V -> B * C -> B * C) (step' : K -> V -> B -> B) st (m : gmap K V) :
  (forall k v st, fst (step k v st) = step' k v (fst st)) ->
  fst (map_fold step st m) = map_fold step' (fst st) m.
Proof.
  intros Hstep. induction m as [|k v m Hk Hfold IH] using gmap_fold_ind.
  - by rewrite !map_fold_empty.
  - by rewrite !Hfold, Hstep, IH.
Qed.

Lemma map_imap_Some_fmap `{Countable K} {V} (f : V -> V) (m : gmap K V) :
  map_imap (fun _ v => Some (f v)) m = f <$> m.
Proof.
  apply map_eq; intros k. rewrite map_lookup_imap, lookup_fmap.
  by destruct (m !! k).
Qed.

Lemma map_imap_keys_filter `{Countable K} {V A} (R : gmap K A) (m : gmap K V) :
  map_imap (fun k v => if R !! k is Some _ then Some v else None) m =
  filter (fun p => is_Some (R !! fst p)) m.
Proof.
  apply map_eq; intros k. rewrite map_lookup_imap, map_lookup_filter.
  destruct (m !! k) as [v|]; simpl; [|done].
  case_guard as Hg; simpl in *.
  - destruct Hg as [x Hx]. by rewrite Hx.
  - destruct (R !! k) eqn:E; [|done]. exfalso. apply Hg. eauto.
Qed.

Section reconcile.
Context {A : Type} (recovered : gmap ContainerID A).

Lemma clearSlots_fst st :
  fst (clearSlots recovered st) = set_slotStates (fmap (keepSlot recovered)) (fst st).
Proof.
  unfold clearSlots.
  rewrite (fst_map_fold _
    (fun k (_ : slot) r =>
       match slotStates r !! k with
       | Some s =>
           match containerID s with
           | Some c =>
               match recovered !! c with
               | Some _ => r
               | None => set_slotStates (insert k (set_containerID None s)) r
               end
           | None => r
           end
       | None => r
       end)).
  2:{ intros k v [r u]; simpl. destruct (slotStates r !! k) as [s|]; [|done].
      destruct (containerID s) as [c|]; [|done]. by destruct (recovered !! c). }
  rewrite (fold_field slotStates set_slotStates) with
    (upd := fun _ s => Some (keepSlot recovered s)).
  - unfold set_slotStates. by rewrite map_imap_Some_fmap.
  - by intros f g [].
  - by intros f [].
  - intros f g [] Hfg; simpl in *. unfold set_slotStates; simpl. by rewrite Hfg.
  - by intros [].
  - intros k s r Hs. rewrite Hs. unfold keepSlot, keep.
    destruct s as [dev en [c|]]; simpl.
    + destruct (recovered !! c); [|done].
      unfold set_slotStates. destruct r; simpl in *. f_equal.
      symmetry. exact (insert_id _ k _ Hs).
    + unfold set_slotStates. destruct r; simpl in *. f_equal.
      symmetry. exact (insert_id _ k _ Hs).
Qed.

Lemma clearContainers_fst st :
  fst (clearContainers recovered st) =
  set_containerState (filter (fun p => is_Some (recovered !! fst p))) (fst st).
Proof.
  unfold clearContainers.
  rewrite (fst_map_fold _
    (fun cid (_ : Container) r =>
       match recovered !! cid with
       | Some _ => r
       | None => set_containerState (delete cid) r
       end)).
  2:{ intros k v [r u]; simpl. by destruct (recovered !! k). }
  rewrite (fold_field containerState set_containerState) with
    (upd := fun k v => if recovered !! k is Some _ then Some v else None).
  - unfold set_containerState. by rewrite map_imap_keys_filter.
  - by intros f g [].
  - by intros f [].
  - intros f g [] Hfg; simpl in *. unfold set_containerState; simpl. by rewrite Hfg.
  - by intros [].
  - intros k v r Hv. destruct (recovered !! k); [|done].
    unfold set_containerState. destruct r; simpl in *. f_equal.
    symmetry. exact (insert_id _ k _ Hv).
Qed.

Lemma clearAllocations_fst st :
  fst (clearAllocations recovered st) =
  set_containerAllocation (filter (fun p => is_Some (recovered !! fst p))) (fst st).
Proof.
  unfold clearAllocations.
  rewrite (fst_map_fold _
    (fun cid (_ : AllocationID) r =>
       match recovered !! cid with
       | Some _ => r
       | None => set_containerAllocation (delete cid) r
       end)).
  2:{ intros k v [r u]; simpl. by destruct (recovered !! k). }
  rewrite (fold_field containerAllocation set_containerAllocation) with
    (upd := fun k v => if recovered !! k is Some _ then Some v else None).
  - unfold set_containerAllocation. by rewrite map_imap_keys_filter.
  - by intros f g [].
  - by intros f [].
  - intros f g [] Hfg; simpl in *. unfold set_containerAllocation; simpl.
    by rewrite Hfg.
  - by intros [].
  - intros k v r Hv. destruct (recovered !! k); [|done].
    unfold set_containerAllocation. destruct r; simpl in *. f_equal.
    symmetry. exact (insert_id _ k _ Hv).
Qed.
End reconcile.

Lemma keepSlot_set_None {A} (R : gmap ContainerID A) s s' :
  keepSlot R s' = keepSlot R s -> keep R (containerID s) = None ->
  set_containerID None s' = keepSlot R s.
Proof.
  unfold keepSlot, set_containerID. intros Heq Hnone.
  rewrite Hnone in *. by inversion Heq.
Qed.

(** The first loop of [clearUnlessRecovered], on an aggregate whose view
    agrees with its slots on the containers that are lost: the view is
    mapped by [keep], and the slots it clears are slots that the second
    loop would clear. *)
Lemma clearDevices_spec {A} (R : gmap ContainerID A) a :
  viewAgreesOnLost R a ->
  exists S u,
    clearDevices R a =
      Some (set_slotStates (fun _ => S) (set_Devices (fmap (keep R)) a), u) /\
    keepSlot R <$> S = keepSlot R <$> slotStates a.
Proof.
  intros Hagree. unfold clearDevices.
  cut (forall m, m ⊆ Devices a ->
         exists S u,
           map_fold
             (fun d (_ : option ContainerID) (acc : option (agentState * bool)) =>
                st ← acc;
                match Devices (fst st) !! d with
                | Some (Some cID) =>
                    match R !! cID with
                    | Some _ => Some st
                    | None =>
                        s ← slotStates (fst st) !! ID d;
                        Some (set_slotStates (insert (ID d) (set_containerID None s))
                                (set_Devices (insert d None) (fst st)), true)
                    end
                | _ => Some st
                end) (Some (a, false)) m =
             Some (set_slotStates (fun _ => S)
                     (set_Devices (fun D => (keep R <$> m) ∪ D) a), u) /\
           keepSlot R <$> S = keepSlot R <$> slotStates a).
  { intros Hcut. destruct (Hcut (Devices a)) as (S & u & Heq & HS); [done|].
    exists S, u. split; [|done]. rewrite Heq.
    rewrite (set_Devices_ext _ (fmap (keep R))); [done|].
    apply map_eq; intros d. rewrite lookup_union, lookup_fmap.
    by destruct (Devices a !! d). }
  intros m. induction m as [|d o m Hd Hfold IH] using gmap_fold_ind; intros Hsub.
  - exists (slotStates a), false. split; [|done].
    rewrite map_fold_empty, fmap_empty.
    rewrite (set_Devices_ext _ (fun D => D)) by apply (left_id_L ∅ (∪)).
    by destruct a.
  - assert (Ho : Devices a !! d = Some o).
    { eapply lookup_weaken; [|exact Hsub]. apply lookup_insert_eq. }
    destruct IH as (S & u & Heq & HS).
    { etrans; [|exact Hsub]. by apply insert_subseteq. }
    rewrite Hfold, Heq. simpl.
    rewrite lookup_union, lookup_fmap, Hd; simpl.
    rewrite (left_id_L None (∪)), Ho.
    assert (Hsame : keep R o = o ->
              set_slotStates (fun _ => S)
                (set_Devices (fun D => (keep R <$> m) ∪ D) a) =
              set_slotStates (fun _ => S)
                (set_Devices (fun D => (keep R <$> <[d:=o]> m) ∪ D) a)).
    { intros Hk. f_equal. apply set_Devices_ext.
      rewrite fmap_insert, Hk, <- insert_union_l. symmetry. apply insert_id.
      rewrite lookup_union, lookup_fmap, Hd; simpl.
      by rewrite (left_id_L None (∪)). }
    destruct o as [c|].
    + destruct (R !! c) as [x|] eqn:Hc.
      * exists S, u. split; [|done]. rewrite Hsame; [done|].
        simpl. by rewrite Hc.
      * destruct (Hagree _ _ Ho Hc) as (s0 & Hs0 & Hlost).
        assert (Hs' : exists s', S !! ID d = Some s' /\ keepSlot R s' = keepSlot R s0).
        { assert ((keepSlot R <$> S) !! ID d = Some (keepSlot R s0)) as Hl
            by (by rewrite HS, lookup_fmap, Hs0).
          rewrite lookup_fmap in Hl. destruct (S !! ID d) as [s'|]; [|done].
          exists s'. split; [done|]. simpl in Hl. congruence. }
        destruct Hs' as (s' & Hs' & Hkeep). rewrite Hs'. simpl.
        exists (<[ID d := set_containerID None s']> S), true. split.
        -- rewrite (set_Devices_ext (fun D => (keep R <$> <[d:=Some c]> m) ∪ D)
                      (fun D => <[d:=None]> ((keep R <$> m) ∪ D)) a).
           ++ by destruct a.
           ++ rewrite fmap_insert. simpl. rewrite Hc. by rewrite insert_union_l.
        -- rewrite fmap_insert, HS. apply insert_id.
           rewrite lookup_fmap, Hs0. simpl. f_equal.
           rewrite (keepSlot_set_None R s0 s') by done.
           unfold keepSlot at 1. simpl.
           unfold keepSlot. unfold set_containerID; simpl. by rewrite Hlost.
    + exists S, u. split; [|done]. by rewrite Hsame.
Qed.

(** C7, as the code has it: on an aggregate whose view agrees with its
    slots on the containers that are lost, [clearUnlessRecovered] clears
    the occupant of every device and of every slot that is not recovered,
    drops every record and every owner entry of a container that is not
    recovered, and leaves every device, slot, record and owner entry of a
    recovered container, and the rest of the aggregate, as they were. *)
Theorem clearUnlessRecovered_exact {A}
    (recovered : gmap ContainerID A) (a : agentState) :
  viewAgreesOnLost recovered a ->
  exists updated,
    clearUnlessRecovered recovered a = Some (reconciled recovered a, updated).
Proof.
  intros Hagree. unfold clearUnlessRecovered.
  destruct (clearDevices_spec recovered a Hagree) as (S & u & Heq & HS).
  rewrite Heq. simpl.
  match goal with |- exists _, Some ?x = _ => exists (snd x) end.
  f_equal. apply injective_projections; [|done]. simpl.
  rewrite clearAllocations_fst, clearContainers_fst, clearSlots_fst. simpl.
  unfold set_containerAllocation, set_containerState, set_slotStates, set_Devices,
    reconciled; simpl.
  by rewrite HS.
Qed.

(** C7 as stated fails: "c2" is recovered and is the occupant of slot 0,
    yet the reconciliation clears slot 0, because the view has the lost
    container "c1" on the device of that slot. *)
Lemma clearUnlessRecovered_counterexample :
  fst (startContainer (mkStart (mkContainer "c2" Assigned [gpu 0]) "alloc-2")
         (snd (allocateFreeDevices 1 "c1" oneGpuAgent))) = None /\
  containerID <$> slotStates doublyClaimedAgent !! 0 = Some (Some "c2") /\
  onlyC2Recovered !! "c2" = Some tt /\
  (a' ← fst <$> clearUnlessRecovered onlyC2Recovered doublyClaimedAgent;
   containerID <$> slotStates a' !! 0) = Some None.
Proof. vm_compute. by repeat split. Qed.

(** C9 as stated fails: the report below lists two devices, one of them
    unknown to the aggregate, which knows one device; the check returns no
    error, because the second reported device has the ID of the first. *)
Lemma checkAgentStartedDevicesMatch_counterexample :
  fst (checkAgentStartedDevicesMatch [gpuA; gpuB] agentWithGpuB) = None /\
  length [gpuA; gpuB] = 2%nat /\
  size (slotStates agentWithGpuB) = 1%nat /\
  gpuA ∈ [gpuA; gpuB] /\
  ~ knownDevice agentWithGpuB gpuA.
Proof.
  split; [by vm_compute|]. split; [done|]. split; [by vm_compute|].
  split; [by left|].
  intros (k & s & Hs & Hdev).
  assert (Hl : map_to_list (slotStates agentWithGpuB)
               = [(0, mkSlot gpuB (mkSlotEnabled true true true false) None)])
    by (by vm_compute).
  apply elem_of_map_to_list in Hs. rewrite Hl in Hs.
  apply list_elem_of_singleton in Hs. inversion Hs; subst. simpl in Hdev.
  discriminate Hdev.
Qed.

(** ** Snapshot and recovery *)

Lemma foldr_snoc_perm {K X Y} (g : X -> Y) (l : list (K * X)) :
  foldr (uncurry (fun (_ : K) x (acc : list Y) => acc ++ [g x])) [] l ≡ₚ
  (fun p => g (snd p)) <$> l.
Proof.
  induction l as [|[k x] l IH]; simpl; [done|].
  rewrite IH. symmetry. apply Permutation_cons_append.
Qed.

Lemma snapshot_slots_perm uuid_String a :
  as_Slots (snapshot uuid_String a) ≡ₚ
  (fun p => slotDataOf (snd p)) <$> map_to_list (slotStates a).
Proof.
  unfold snapshot; simpl. rewrite map_fold_foldr.
  apply (foldr_snoc_perm slotDataOf).
Qed.

Lemma elem_of_snapshot_slots uuid_String a sd :
  sd ∈ as_Slots (snapshot uuid_String a) <->
  exists k s, slotStates a !! k = Some s /\ sd = slotDataOf s.
Proof.
  rewrite snapshot_slots_perm, list_elem_of_fmap. split.
  - intros ([k s] & -> & Hin%elem_of_map_to_list). by exists k, s.
  - intros (k & s & Hs & ->). exists (k, s). split; [done|].
    by apply elem_of_map_to_list.
Qed.

Lemma NoDup_snapshot_slots uuid_String a :
  slotsKeyedByDevice a ->
  NoDup ((fun sd => ID (sd_Device sd)) <$> as_Slots (snapshot uuid_String a)).
Proof.
  intros Hkeyed. rewrite snapshot_slots_perm, <- list_fmap_compose.
  rewrite (list_fmap_ext _ fst (map_to_list (slotStates a))).
  - apply NoDup_fst_map_to_list.
  - intros i [k s] Hi. simpl. apply (Hkeyed k s).
    apply elem_of_map_to_list. by eapply list_elem_of_lookup_2.
Qed.

Lemma foldl_pair_split {X B C} (f : B -> X -> B) (g : C -> X -> C) (l : list X) b c :
  foldl (fun (acc : B * C) x => (f (fst acc) x, g (snd acc) x)) (b, c) l =
  (foldl f b l, foldl g c l).
Proof. revert b c. induction l as [|x l IH]; intros b c; simpl; [done|apply IH]. Qed.

Lemma dom_foldl_insert `{Countable K} {V X} (key : X -> K) (val : X -> V)
    (l : list X) (m : gmap K V) :
  dom (foldl (fun (m : gmap K V) x => <[key x := val x]> m) m l) =
  list_to_set (key <$> l) ∪ dom m.
Proof.
  revert m. induction l as [|x l IH]; intros m; simpl.
  - by rewrite (left_id_L ∅ (∪)).
  - rewrite IH, dom_insert_L, !(assoc_L (∪)). f_equal. apply (comm_L (∪)).
Qed.

Lemma elem_of_snapshot_containers uuid_String a c :
  c ∈ as_Containers (snapshot uuid_String a) <-> c ∈ dom (containerState a).
Proof.
  unfold snapshot; simpl. rewrite elem_of_dom, list_elem_of_fmap. split.
  - intros ([c' x] & -> & Hin%elem_of_map_to_list). by exists x.
  - intros [x Hx]. exists (c, x). split; [done|]. by apply elem_of_map_to_list.
Qed.

(** C1, as the code has it: take an aggregate whose slots are kept under
    their device's ID, all carry the flags the recovery gives to a slot
    (added to the view, enabled as the agent is, draining as the agent
    is), and whose view maps exactly the devices of the slots to the
    occupants of the slots; let every tracked container have a stored row.
    Then recovering from its snapshot gives back its slots with their
    flags, its view and its set of tracked container IDs, with an empty
    container-to-allocation map. *)
Theorem snapshot_recover_roundtrip
    (uuid_String : N -> string) (uuid_Parse : string -> option N)
    (stored : list Container) (a : agentState) :
  uuid_Parse (uuid_String (uuid a)) = Some (uuid a) ->
  slotsKeyedByDevice a ->
  (forall k s, slotStates a !! k = Some s ->
     s_enabled s = mkSlotEnabled true (enabled a) (enabled a) (draining a)) ->
  (forall d o, Devices a !! d = Some o <->
     exists k s, slotStates a !! k = Some s /\ device s = d /\ containerID s = o) ->
  (forall c, c ∈ dom (containerState a) -> exists row, row ∈ stored /\ c_ID row = c) ->
  exists a',
    newAgentStateFromSnapshot uuid_Parse stored (snapshot uuid_String a) = Some a' /\
    slotStates a' = slotStates a /\
    Devices a' = Devices a /\
    dom (containerState a') = dom (containerState a) /\
    containerAllocation a' = ∅ /\
    (id a', resourcePoolName a', enabled a', draining a', uuid a',
     maxZeroSlotContainers a') =
    (id a, resourcePoolName a, enabled a, draining a, uuid a,
     maxZeroSlotContainers a).
Proof.
  intros Hparse Hkeyed Hflags Hview Hstored.
  pose proof (NoDup_snapshot_slots uuid_String a Hkeyed) as Hnd.
  unfold newAgentStateFromSnapshot.
  change (as_UUID (snapshot uuid_String a)) with (uuid_String (uuid a)).
  rewrite Hparse; simpl.
  rewrite (foldl_pair_split
    (fun (S : gmap Z slot) sd =>
       <[ID (sd_Device sd) :=
           mkSlot (sd_Device sd)
             (mkSlotEnabled true (enabled a) (enabled a) (draining a))
             (sd_ContainerID sd)]> S)
    (fun (D : gmap Device (option ContainerID)) sd =>
       <[sd_Device sd := sd_ContainerID sd]> D)).
  eexists. split; [reflexivity|]. simpl.
  split; [|split; [|split; [|done]]].
  - apply map_eq; intros k. apply option_eq; intros s.
    rewrite (lookup_foldl_insert (fun sd => ID (sd_Device sd))
               (fun sd => mkSlot (sd_Device sd)
                            (mkSlotEnabled true (enabled a) (enabled a) (draining a))
                            (sd_ContainerID sd))) by exact Hnd.
    rewrite lookup_empty. split.
    + intros [(sd & Hin & Hk & Hv)|[_ Hm]]; [|done].
      apply (elem_of_snapshot_slots uuid_String a) in Hin as (k' & s' & Hs' & ->).
      simpl in *. rewrite (Hkeyed _ _ Hs') in Hk. subst k' s.
      rewrite Hs'. f_equal. rewrite <- (Hflags _ _ Hs'). by destruct s'.
    + intros Hs. left. exists (slotDataOf s).
      split; [apply (elem_of_snapshot_slots uuid_String a); by exists k, s|].
      split; [by apply Hkeyed|]. simpl.
      rewrite <- (Hflags _ _ Hs). by destruct s.
  - apply map_eq; intros d. apply option_eq; intros o.
    rewrite (lookup_foldl_insert sd_Device sd_ContainerID).
    2:{ apply (NoDup_fmap_1 ID). by rewrite <- list_fmap_compose. }
    rewrite lookup_empty, Hview. split.
    + intros [(sd & Hin & Hk & Hv)|[_ Hm]]; [|done].
      apply (elem_of_snapshot_slots uuid_String a) in Hin as (k' & s' & Hs' & ->).
      by exists k', s'.
    + intros (k & s & Hs & Hd & Ho). left. exists (slotDataOf s).
      split; [apply (elem_of_snapshot_slots uuid_String a); by exists k, s|done].
  - change ((map_to_list (containerState a)).*1)
      with (as_Containers (snapshot uuid_String a)).
    destruct (Nat.ltb_spec 0 (length (as_Containers (snapshot uuid_String a))))
      as [Hlen|Hlen].
    + unfold selectContainers.
      rewrite (dom_foldl_insert c_ID (fun c => c)), dom_empty_L.
      rewrite (right_id_L ∅ (∪)). apply set_eq; intros c.
      rewrite elem_of_list_to_set, list_elem_of_fmap. split.
      * intros (row & -> & [Hin _]%list_elem_of_filter).
        by apply (elem_of_snapshot_containers uuid_String).
      * intros Hc. destruct (Hstored _ Hc) as (row & Hrow & <-).
        exists row. split; [done|]. apply list_elem_of_filter. split; [|done].
        by apply (elem_of_snapshot_containers uuid_String).
    + rewrite dom_empty_L. symmetry. apply set_eq; intros c.
      rewrite <- (elem_of_snapshot_containers uuid_String).
      destruct (as_Containers (snapshot uuid_String a)); [|simpl in Hlen; lia].
      split; [by intros ?%elem_of_nil|by intros ?%elem_of_empty].
Qed.

(** C1 as stated fails: the slot below is disabled by the operator and not
    in the view; after recovery it is enabled and in the view. *)
Lemma snapshot_recover_counterexample :
  (fun s => (userEnabled (s_enabled s), deviceAdded (s_enabled s)))
    <$> slotStates userDisabledAgent !! 0 = Some (false, false) /\
  Devices userDisabledAgent !! gpu 0 = None /\
  (a' ← newAgentStateFromSnapshot exampleParse []
          (snapshot exampleString userDisabledAgent);
   (fun s => (userEnabled (s_enabled s), deviceAdded (s_enabled s)))
     <$> slotStates a' !! 0) = Some (true, true) /\
  (a' ← newAgentStateFromSnapshot exampleParse []
          (snapshot exampleString userDisabledAgent);
   Devices a' !! gpu 0) = Some None.
Proof. vm_compute. by repeat split. Qed.

(** ** Copies and sharing *)

Lemma fresh_dom_ne `{Countable K} `{Infinite K} {V} (m : gmap K V) k v :
  m !! k = Some v -> fresh (dom m) <> k.
Proof.
  intros Hk Heq. apply (is_fresh (dom m)). rewrite Heq. by eapply elem_of_dom_2.
Qed.

(** C6, as the code has it: the copy that [deepCopy] returns holds the
    values the original had for its device view, its container records
    and its scalar fields, and whatever a method then does to the
    original leaves those of the copy as they were; the slots are shared,
    so that the slots seen through the copy are at any time those of the
    original. *)
Theorem deepCopy_shares_slots_only
    (h : Heap.store) (p : positive) (a : agentState)
    (c : positive) (h1 : Heap.store)
    (op : agentState -> agentState) (h2 : Heap.store) :
  Heap.load h p = Some a ->
  Heap.deepCopy h p = Some (c, h1) ->
  Heap.run op h1 p = Some h2 ->
  Heap.load h1 p = Some a /\
  Heap.load h1 c = Some (deepCopy a) /\
  Heap.load h2 p = Some (op a) /\
  Heap.load h2 c = Some (set_slotStates (fun _ => slotStates (op a)) (deepCopy a)).
Proof.
  intros Hload Hcopy Hrun.
  unfold Heap.load in Hload.
  destruct (Heap.agents h !! p) as [o|] eqn:Ho; simpl in Hload; [|done].
  destruct (Heap.deviceMaps h !! Heap.o_Devices o) as [D|] eqn:HD;
    simpl in Hload; [|done].
  destruct (Heap.slotMaps h !! Heap.o_slotStates o) as [S|] eqn:HS;
    simpl in Hload; [|done].
  destruct (match Heap.o_containerAllocation o with
            | Some l => Heap.allocationMaps h !! l
            | None => Some ∅
            end) as [CA|] eqn:HCA; simpl in Hload; [|done].
  destruct (Heap.containerMaps h !! Heap.o_containerState o) as [CS|] eqn:HCS;
    simpl in Hload; [|done].
  inversion Hload; subst a; clear Hload.
  unfold Heap.deepCopy in Hcopy. rewrite Ho in Hcopy; simpl in Hcopy.
  rewrite HD in Hcopy; simpl in Hcopy. rewrite HCS in Hcopy; simpl in Hcopy.
  inversion Hcopy; subst c h1; clear Hcopy.
  pose proof (fresh_dom_ne _ _ _ Ho) as Hp.
  pose proof (fresh_dom_ne _ _ _ HD) as HlD.
  pose proof (fresh_dom_ne _ _ _ HCS) as HlC.
  set (c := fresh (dom (Heap.agents h))) in *.
  set (lD := fresh (dom (Heap.deviceMaps h))) in *.
  set (lC := fresh (dom (Heap.containerMaps h))) in *.
  assert (Hload1 : Heap.load
            (Heap.mkStore
               (<[c := Heap.mkAgentObj (Heap.o_id o) lD (Heap.o_resourcePoolName o)
                         (Heap.o_enabled o) (Heap.o_draining o) 0%N
                         (Heap.o_maxZeroSlotContainers o) (Heap.o_slotStates o)
                         None lC]> (Heap.agents h))
               (<[lD := D]> (Heap.deviceMaps h)) (Heap.slotMaps h)
               (Heap.allocationMaps h) (<[lC := CS]> (Heap.containerMaps h))) p
          = Some (mkAgentState (Heap.o_id o) D (Heap.o_resourcePoolName o)
                    (Heap.o_enabled o) (Heap.o_draining o) (Heap.o_uuid o)
                    (Heap.o_maxZeroSlotContainers o) S CA CS)).
  { unfold Heap.load; simpl.
    rewrite (lookup_insert_ne (Heap.agents h)) by done. rewrite Ho; simpl.
    rewrite (lookup_insert_ne (Heap.deviceMaps h)) by done. rewrite HD; simpl.
    rewrite HS; simpl. rewrite HCA; simpl.
    rewrite (lookup_insert_ne (Heap.containerMaps h)) by done. by rewrite HCS. }
  split; [exact Hload1|]. split.
  { unfold Heap.load; simpl.
    rewrite lookup_insert_eq; simpl. rewrite lookup_insert_eq; simpl.
    rewrite HS; simpl. by rewrite lookup_insert_eq. }
  unfold Heap.run in Hrun. rewrite Hload1 in Hrun; simpl in Hrun.
  unfold Heap.write in Hrun; simpl in Hrun.
  rewrite (lookup_insert_ne (Heap.agents h)) in Hrun by done.
  rewrite Ho in Hrun; simpl in Hrun.
  set (a := mkAgentState (Heap.o_id o) D (Heap.o_resourcePoolName o)
              (Heap.o_enabled o) (Heap.o_draining o) (Heap.o_uuid o)
              (Heap.o_maxZeroSlotContainers o) S CA CS) in *.
  destruct (Heap.o_containerAllocation o) as [lA|] eqn:HlA; simpl in Hrun.
  - inversion Hrun; subst h2; clear Hrun. split.
    + unfold Heap.load; simpl.
      rewrite lookup_insert_eq; simpl. rewrite lookup_insert_eq; simpl.
      rewrite lookup_insert_eq; simpl. rewrite lookup_insert_eq; simpl.
      rewrite lookup_insert_eq; simpl. by destruct (op a).
    + unfold Heap.load; simpl.
      rewrite (lookup_insert_ne _ p c) by done. rewrite lookup_insert_eq; simpl.
      rewrite (lookup_insert_ne _ (Heap.o_Devices o) lD) by done.
      rewrite lookup_insert_eq; simpl.
      rewrite lookup_insert_eq; simpl.
      rewrite (lookup_insert_ne _ (Heap.o_containerState o) lC) by done.
      by rewrite lookup_insert_eq.
  - destruct (decide (containerAllocation (op a) = ∅)) as [Hempty|]; [|done].
    simpl in Hrun. inversion Hrun; subst h2; clear Hrun. split.
    + unfold Heap.load; simpl.
      rewrite lookup_insert_eq; simpl. rewrite lookup_insert_eq; simpl.
      rewrite lookup_insert_eq; simpl.
      rewrite lookup_insert_eq; simpl. rewrite <- Hempty. by destruct (op a).
    + unfold Heap.load; simpl.
      rewrite (lookup_insert_ne _ p c) by done. rewrite lookup_insert_eq; simpl.
      rewrite (lookup_insert_ne _ (Heap.o_Devices o) lD) by done.
      rewrite lookup_insert_eq; simpl.
      rewrite lookup_insert_eq; simpl.
      rewrite (lookup_insert_ne _ (Heap.o_containerState o) lC) by done.
      by rewrite lookup_insert_eq.
Qed.

(** C6 as stated fails: the copy is taken while slot 0 is free; the
    original then learns that "c1" runs on device 0, and the copy sees
    "c1" in slot 0. *)
Lemma deepCopy_counterexample :
  (r ← Heap.deepCopy (snd liveAgent) (fst liveAgent);
   a ← Heap.load (snd r) (fst r);
   containerID <$> slotStates a !! 0) = Some None /\
  (r ← Heap.deepCopy (snd liveAgent) (fst liveAgent);
   h2 ← Heap.run (containerStateChanged c1Running) (snd r) (fst liveAgent);
   a ← Heap.load h2 (fst r);
   containerID <$> slotStates a !! 0) = Some (Some "c1").
Proof. vm_compute. by split. Qed.

(** ** The theorems at concrete inputs *)

Ltac busy H :=
  unfold busyAgent in H;
  cbn [slotStates Devices containerState containerAllocation] in H.

Lemma snapshot_recover_roundtrip_witness :
  exists a',
    newAgentStateFromSnapshot exampleParse [mkContainer "c1" Running [gpu 0]]
      (snapshot exampleString busyAgent) = Some a' /\
    slotStates a' = slotStates busyAgent /\
    Devices a' = Devices busyAgent /\
    dom (containerState a') = dom (containerState busyAgent) /\
    containerAllocation a' = ∅ /\
    (id a', resourcePoolName a', enabled a', draining a', uuid a',
     maxZeroSlotContainers a') =
    (id busyAgent, resourcePoolName busyAgent, enabled busyAgent,
     draining busyAgent, uuid busyAgent, maxZeroSlotContainers busyAgent).
Proof.
  apply (snapshot_recover_roundtrip exampleString exampleParse
           [mkContainer "c1" Running [gpu 0]] busyAgent).
  - vm_compute. reflexivity.
  - intros k s Hs. busy Hs. apply lookup_singleton_Some in Hs as [<- <-]. reflexivity.
  - intros k s Hs. busy Hs. apply lookup_singleton_Some in Hs as [<- <-]. reflexivity.
  - intros d o. split.
    + intros Hd. busy Hd. apply lookup_singleton_Some in Hd as [<- <-].
      eexists 0, _. split; [apply lookup_singleton_eq|]. split; reflexivity.
    + intros (k & s & Hs & <- & <-). busy Hs.
      apply lookup_singleton_Some in Hs as [<- <-]. apply lookup_singleton_eq.
  - intros c Hc. apply elem_of_dom in Hc as [x Hx]. busy Hx.
    apply lookup_singleton_Some in Hx as [<- <-].
    eexists. split; [apply list_elem_of_here|reflexivity].
Defined.


Lemma numSlots_by_state_witness :
  (numSlots (disable false (newAgentState "agent" 0 7%N)) = 0 /\
   numEmptySlots (disable false (newAgentState "agent" 0 7%N)) = 0) /\
  (numSlots (disable true busyAgent) = numUsedSlots (disable true busyAgent) /\
   numEmptySlots (disable true busyAgent) = 0) /\
  (numSlots busyAgent = Z.of_nat (size (Devices busyAgent)) /\
   numEmptySlots busyAgent = numSlots busyAgent - numUsedSlots busyAgent).
Proof.
  split; [|split].
  - destruct (numSlots_by_state (disable false (newAgentState "agent" 0 7%N)))
      as (Hdisabled & _ & _).
    apply Hdisabled; reflexivity.
  - destruct (numSlots_by_state (disable true busyAgent)) as (_ & Hdraining & _).
    apply Hdraining; reflexivity.
  - destruct (numSlots_by_state busyAgent) as (_ & _ & Henabled).
    apply Henabled; reflexivity.
Defined.

Lemma patchSlotState_disable_releases_once_witness :
  exists summary a',
    patchSlotState (mkPatch 0 (Some false) (Some false)) busyAgent =
      Some (inr summary, a', [mkRelease "alloc-1" "slot disabled" true]).
Proof.
  apply (patchSlotState_disable_releases_once busyAgent
           (mkPatch 0 (Some false) (Some false))
           (mkSlot (gpu 0) (mkSlotEnabled true true true false) (Some "c1")) "c1");
    reflexivity.
Defined.

Lemma allocateFreeDevices_all_or_nothing_witness :
  is_Some (containerState
             (snd (allocateFreeDevicesIn (map_to_list (Devices oneGpuAgent)) 1 "c1"
                     oneGpuAgent)) !! "c1").
Proof.
  apply (allocateFreeDevices_all_or_nothing oneGpuAgent "c1" 1
           (map_to_list (Devices oneGpuAgent))); [lia|reflexivity].
Defined.

Lemma deepCopy_shares_slots_only_witness :
  Heap.load (snd freshAgentCopy) (fst freshAgentCopy)
    = Some (deepCopy (newAgentState "agent" 0 7%N)) /\
  Heap.load freshAgentDrained (fst freshAgentCopy)
    = Some (set_slotStates
              (fun _ => slotStates (disable true (newAgentState "agent" 0 7%N)))
              (deepCopy (newAgentState "agent" 0 7%N))).
Proof.
  destruct (deepCopy_shares_slots_only (snd freshAgent) (fst freshAgent)
              (newAgentState "agent" 0 7%N)
              (fst freshAgentCopy) (snd freshAgentCopy)
              (disable true) freshAgentDrained) as (_ & Hcopy & _ & Hlater).
  - vm_compute. reflexivity.
  - vm_compute. reflexivity.
  - vm_compute. reflexivity.
  - split; [exact Hcopy|exact Hlater].
Defined.

Lemma clearUnlessRecovered_exact_witness :
  exists updated,
    clearUnlessRecovered (∅ : gmap ContainerID unit) busyAgent =
      Some (reconciled (∅ : gmap ContainerID unit) busyAgent, updated).
Proof.
  apply (clearUnlessRecovered_exact (∅ : gmap ContainerID unit) busyAgent).
  intros d c Hd _. busy Hd. apply lookup_singleton_Some in Hd as [<- _].
  eexists. split; [apply lookup_singleton_eq|reflexivity].
Defined.

Lemma deallocateContainer_frees_exactly_witness :
  deallocateContainer "c9" busyAgent = busyAgent.
Proof.
  apply (deallocateContainer_frees_exactly busyAgent "c9").
  - apply lookup_singleton_ne. discriminate.
  - intros d Hd. busy Hd. apply lookup_singleton_Some in Hd as [_ Hc].
    discriminate Hc.
Defined.

Lemma checkAgentStartedDevicesMatch_iff_differ_witness :
  snd (checkAgentStartedDevicesMatch [gpu 0] busyAgent) = busyAgent.
Proof.
  apply (checkAgentStartedDevicesMatch_iff_differ busyAgent [gpu 0]).
  - intros k s Hs. busy Hs. apply lookup_singleton_Some in Hs as [<- <-]. reflexivity.
  - apply NoDup_singleton.
Defined.

Lemma draining_implies_not_enabled_witness :
  draining (disable true (enable (newAgentState "agent" 0 7%N))) = true /\
  enabled (disable true (enable (newAgentState "agent" 0 7%N))) = false.
Proof.
  split; [reflexivity|].
  destruct (draining_implies_not_enabled
              (disable true (enable (newAgentState "agent" 0 7%N))))
    as (Hinv & _).
  - apply switched_disable, switched_enable, switched_new.
  - apply Hinv. reflexivity.
Defined.

(** * Further properties of the code *)

(** ** Registration of the reported devices *)

(** One round of the loop of [agentStarted]. *)
Lemma agentStarted_step d a :
  updateSlotDeviceView (ID d)
    (set_slotStates
       (insert (ID d) (mkSlot d (mkSlotEnabled false true true false) None)) a) =
  (set_Devices (insert d None) (set_slotStates (insert (ID d) (freshSlot d)) a), []).
Proof.
  unfold updateSlotDeviceView. simpl. rewrite lookup_insert_eq. simpl.
  unfold set_slotStates, set_Devices, addDevice, set_Devices; simpl.
  by rewrite insert_insert_eq.
Qed.

(** [agentStarted] in closed form: whatever the aggregate holds, every
    reported device gets a new slot and enters the view free. *)
Lemma agentStarted_eq ds a :
  agentStarted ds a =
  (set_slotStates (fun S => foldl (fun (S : gmap Z slot) d => <[ID d := freshSlot d]> S) S ds)
     (set_Devices
        (fun D => foldl (fun (D : gmap Device (option ContainerID)) d => <[d := None]> D) D ds)
        a), []).
Proof.
  unfold agentStarted.
  match goal with |- context [foldl ?f (a, [])] => set (step := f) end.
  cut (forall a ev,
         foldl step (a, ev) ds =
         (set_slotStates
            (fun S => foldl (fun (S : gmap Z slot) d => <[ID d := freshSlot d]> S) S ds)
            (set_Devices
               (fun D => foldl (fun (D : gmap Device (option ContainerID)) d =>
                                  <[d := None]> D) D ds) a), ev)).
  { intros Hcut. apply Hcut. }
  clear a. induction ds as [|d ds IH]; intros a ev.
  - simpl. by destruct a.
  - change (foldl step (a, ev) (d :: ds)) with (foldl step (step (a, ev) d) ds).
    assert (Hstep : step (a, ev) d =
              (set_Devices (insert d None)
                 (set_slotStates (insert (ID d) (freshSlot d)) a), ev)).
    { unfold step. cbv zeta. cbn [fst snd]. rewrite agentStarted_step.
      cbn [fst snd]. by rewrite app_nil_r. }
    rewrite Hstep, IH. simpl. by destruct a.
Qed.

Lemma lookup_foldl_insert_const `{Countable K} {V} (v : V) (l : list K) (m : gmap K V) k :
  foldl (fun (m : gmap K V) x => <[x := v]> m) m l !! k =
  if decide (k ∈ l) then Some v else m !! k.
Proof.
  revert m. induction l as [|x l IH]; intros m; simpl.
  - destruct (decide (k ∈ [])) as [Hin|_]; [by apply elem_of_nil in Hin|done].
  - rewrite IH. destruct (decide (k ∈ l)) as [Hin|Hnin].
    + by rewrite decide_True by (by right).
    + destruct (decide (k = x)) as [->|Hne].
      * rewrite lookup_insert_eq. by rewrite decide_True by (by left).
      * rewrite lookup_insert_ne by done.
        rewrite decide_False; [done|]. by intros [?|?]%elem_of_cons.
Qed.

(** X1: [agentStarted] publishes nothing and touches neither the container
    records nor the owners; every reported device is in the view afterwards
    with no occupant, whatever it held before, and every other device of
    the view is as before; when the reported IDs are pairwise distinct,
    the slot under the ID of a reported device is the fresh slot of that
    device, and the slots under other IDs are as before. *)
Theorem agentStarted_registers (ds : list Device) (a : agentState) :
  NoDup (ID <$> ds) ->
  let r := agentStarted ds a in
  snd r = [] /\
  containerState (fst r) = containerState a /\
  containerAllocation (fst r) = containerAllocation a /\
  (forall d, d ∈ ds ->
     Devices (fst r) !! d = Some None /\
     slotStates (fst r) !! ID d = Some (freshSlot d)) /\
  (forall d, d ∉ ds -> Devices (fst r) !! d = Devices a !! d) /\
  (forall k, k ∉ ID <$> ds -> slotStates (fst r) !! k = slotStates a !! k).
Proof.
  intros Hnd r. subst r. rewrite agentStarted_eq. simpl.
  split; [done|]. split; [done|]. split; [done|]. split; [|split].
  - intros d Hd. split.
    + by rewrite lookup_foldl_insert_const, decide_True.
    + apply (lookup_foldl_insert ID freshSlot); [done|]. left. by exists d.
  - intros d Hd. by rewrite lookup_foldl_insert_const, decide_False.
  - intros k Hk. apply option_eq; intros s.
    rewrite (lookup_foldl_insert ID freshSlot) by done. split.
    + intros [(x & Hin & <- & _)|[_ Hs]]; [|done].
      exfalso. apply Hk. apply list_elem_of_fmap. by exists x.
    + intros Hs. by right.
Qed.

Lemma agentStarted_registers_witness :
  Devices (fst (agentStarted [gpu 0; gpu 1] busyAgent)) !! gpu 0 = Some None /\
  slotStates (fst (agentStarted [gpu 0; gpu 1] busyAgent)) !! ID (gpu 0)
    = Some (freshSlot (gpu 0)).
Proof.
  apply (agentStarted_registers [gpu 0; gpu 1] busyAgent).
  - vm_compute. apply NoDup_cons. split; [|apply NoDup_singleton].
    intros Hin. apply list_elem_of_singleton in Hin. discriminate Hin.
  - by left.
Defined.

Lemma size_foldl_insert_const `{Countable K} {V} (v : V) (l : list K) :
  NoDup l -> size (foldl (fun (m : gmap K V) x => <[x := v]> m) ∅ l) = length l.
Proof.
  intros Hnd. rewrite <- size_dom.
  rewrite (dom_foldl_insert (fun x => x) (fun _ => v)), dom_empty_L.
  rewrite (right_id_L ∅ (∪)), list_fmap_id. by apply size_list_to_set.
Qed.

(** X2: an agent that has just registered its devices, with pairwise
    distinct IDs, reports as many slots as devices, all of them empty, and
    is idle. *)
Theorem agentStarted_capacity (i : AgentID) (m : Z) (u : N) (ds : list Device) :
  NoDup (ID <$> ds) ->
  let a := fst (agentStarted ds (newAgentState i m u)) in
  numSlots a = Z.of_nat (length ds) /\
  numUsedSlots a = 0 /\
  numEmptySlots a = Z.of_nat (length ds) /\
  idle a = true.
Proof.
  intros Hnd a. subst a. rewrite agentStarted_eq. cbn [fst].
  match goal with |- numSlots ?x = _ /\ _ => set (a := x) end.
  assert (HD : Devices a = foldl (fun (D : gmap Device (option ContainerID)) d =>
                                    <[d := None]> D) ∅ ds) by reflexivity.
  assert (HC : containerState a = ∅) by reflexivity.
  assert (HE : enabled a = true) by reflexivity.
  assert (HDr : draining a = false) by reflexivity.
  assert (Hused : numUsedSlots a = 0).
  { rewrite numUsedSlots_spec, HD.
    replace (filter _ _) with (∅ : gmap Device (option ContainerID));
      [by rewrite map_size_empty|].
    symmetry. apply map_empty_filter. intros d o Hd [c Hc].
    rewrite lookup_foldl_insert_const in Hd. simpl in Hc. subst o.
    destruct (decide (d ∈ ds)); [done|]. by rewrite lookup_empty in Hd. }
  assert (Hsize : Z.of_nat (size (Devices a)) = Z.of_nat (length ds)).
  { rewrite HD, size_foldl_insert_const; [done|]. by apply (NoDup_fmap_1 ID). }
  assert (Hzero : numUsedZeroSlots a = 0).
  { unfold numUsedZeroSlots. rewrite HC. by rewrite map_fold_empty. }
  clearbody a.
  unfold numEmptySlots, numSlots, idle. rewrite Hused, Hzero, HE, HDr, Hsize. simpl.
  repeat split; lia.
Qed.

Lemma agentStarted_capacity_witness :
  numSlots (fst (agentStarted [gpu 0; gpu 1] (newAgentState "agent" 0 7%N))) = 2 /\
  numEmptySlots (fst (agentStarted [gpu 0; gpu 1] (newAgentState "agent" 0 7%N))) = 2.
Proof.
  destruct (agentStarted_capacity "agent" 0 7%N [gpu 0; gpu 1])
    as (Hslots & _ & Hempty & _).
  - vm_compute. apply NoDup_cons. split; [|apply NoDup_singleton].
    intros Hin. apply list_elem_of_singleton in Hin. discriminate Hin.
  - split; [exact Hslots|exact Hempty].
Defined.

(** X3: on an agent that has just registered an inventory with pairwise
    distinct IDs, the validation of a later report with pairwise distinct
    IDs passes exactly when that report is a reordering of the registered
    inventory. *)
Theorem registered_inventory_validates (i : AgentID) (m : Z) (u : N)
    (ds ds' : list Device) :
  NoDup (ID <$> ds) ->
  NoDup (ID <$> ds') ->
  fst (checkAgentStartedDevicesMatch ds'
         (fst (agentStarted ds (newAgentState i m u)))) = None
  <-> ds' ≡ₚ ds.
Proof.
  intros Hnd Hnd'. rewrite checkAgentStartedDevicesMatch_None, ourDevices_eq.
  rewrite agentStarted_eq. simpl.
  assert (Hours : forall k d,
            (device <$> foldl (fun (S : gmap Z slot) d => <[ID d := freshSlot d]> S) ∅ ds)
              !! k = Some d <-> d ∈ ds /\ ID d = k).
  { intros k d. rewrite lookup_fmap, fmap_Some. split.
    - intros (s & Hs & ->).
      apply (lookup_foldl_insert ID freshSlot) in Hs; [|done].
      destruct Hs as [(x & Hin & Hk & <-)|[_ Hs]]; [done|by rewrite lookup_empty in Hs].
    - intros [Hin Hk]. exists (freshSlot d). split; [|done].
      apply (lookup_foldl_insert ID freshSlot); [done|]. left. by exists d. }
  split.
  - intros Heq. apply NoDup_Permutation.
    + by apply (NoDup_fmap_1 ID).
    + by apply (NoDup_fmap_1 ID).
    + intros d. split.
      * intros Hin. assert (theirDevices ds' !! ID d = Some d) as Hd
          by (by apply lookup_theirDevices).
        rewrite <- Heq in Hd. by apply Hours in Hd as [? _].
      * intros Hin. assert (theirDevices ds' !! ID d = Some d) as Hd
          by (rewrite <- Heq; by apply Hours).
        by apply lookup_theirDevices in Hd as [? _].
  - intros Hperm. apply map_eq; intros k. apply option_eq; intros d.
    rewrite Hours, lookup_theirDevices by done. by rewrite Hperm.
Qed.

Lemma registered_inventory_validates_witness :
  fst (checkAgentStartedDevicesMatch [gpu 1; gpu 0]
         (fst (agentStarted [gpu 0; gpu 1] (newAgentState "agent" 0 7%N)))) = None.
Proof.
  assert (Hnd : forall x y : Z, x <> y -> NoDup [x; y]).
  { intros x y Hxy. apply NoDup_cons. split; [|apply NoDup_singleton].
    intros Hin. by apply list_elem_of_singleton in Hin. }
  apply (registered_inventory_validates "agent" 0 7%N [gpu 0; gpu 1] [gpu 1; gpu 0]).
  - apply Hnd. discriminate.
  - apply Hnd. discriminate.
  - apply perm_swap.
Defined.

(** ** Capacity readings *)

Lemma numUsedZeroSlots_spec a :
  numUsedZeroSlots a =
  Z.of_nat (size (filter (fun p : ContainerID * Container => c_Devices (snd p) = [])
                    (containerState a))).
Proof.
  unfold numUsedZeroSlots. generalize (containerState a). intros m.
  induction m as [|i c m Hi Hfold IH] using gmap_fold_ind.
  - by rewrite map_fold_empty, map_filter_empty, map_size_empty.
  - rewrite Hfold, IH. destruct (c_Devices c) as [|d ds] eqn:Hc; simpl.
    + rewrite map_filter_insert_True by done.
      rewrite map_size_insert_None; [lia|].
      by rewrite map_lookup_filter, Hi.
    + rewrite map_filter_insert_False by (simpl; by rewrite Hc).
      by rewrite delete_id.
Qed.

(** X4: whatever the state, the used slots lie between zero and the size
    of the device view, the empty slots between zero and the slots, the
    slots never exceed the size of the device view, and the used zero-slot
    units lie between zero and the number of tracked containers. *)
Theorem capacity_bounds (a : agentState) :
  0 <= numUsedSlots a <= Z.of_nat (size (Devices a)) /\
  0 <= numEmptySlots a <= numSlots a /\
  numSlots a <= Z.of_nat (size (Devices a)) /\
  0 <= numUsedZeroSlots a <= Z.of_nat (size (containerState a)).
Proof.
  pose proof (numUsedSlots_bounds a) as Hused.
  assert (Hzero : 0 <= numUsedZeroSlots a <= Z.of_nat (size (containerState a))).
  { rewrite numUsedZeroSlots_spec. split; [lia|].
    apply inj_le, map_subseteq_size, map_filter_subseteq. }
  unfold numEmptySlots, numSlots.
  destruct (draining a), (enabled a); simpl; lia.
Qed.

Lemma idle_spec a :
  idle a = true <->
  (forall d o, Devices a !! d = Some o -> o = None) /\
  (forall i c, containerState a !! i = Some c -> c_Devices c <> []).
Proof.
  unfold idle. rewrite andb_true_iff, !Z.eqb_eq.
  rewrite numUsedSlots_spec, numUsedZeroSlots_spec.
  assert (Hz : forall n : nat, Z.of_nat n = 0 <-> n = 0%nat) by (intros; lia).
  rewrite !Hz, !map_size_empty_iff, !map_empty_filter.
  split.
  - intros [Hzero Hused]. split.
    + intros d [c|] Hd; [|done]. destruct (Hused d (Some c) Hd). by exists c.
    + intros i c Hi. exact (Hzero i c Hi).
  - intros [Hview Hrec]. split.
    + intros i c Hi. exact (Hrec i c Hi).
    + intros d o Hd [c Hc]. simpl in Hc. subst o. by specialize (Hview d _ Hd).
Qed.

(** X5: the agent is idle exactly when no device of its view has an
    occupant and every container it tracks has at least one device. *)
Theorem idle_iff (a : agentState) :
  idle a = true <->
  (forall d o, Devices a !! d = Some o -> o = None) /\
  (forall i c, containerState a !! i = Some c -> c_Devices c <> []).
Proof. apply idle_spec. Qed.

(** ** Allocation, accounting and release *)

(** [allocateFreeDevices] in closed form: the devices it picks are the
    first [slots] free devices met along the iteration order. *)
Lemma allocateFreeDevicesIn_eq it k cid a :
  0 <= k ->
  allocateFreeDevicesIn it k cid a =
  let ds := take (Z.to_nat k) (freeIn it) in
  if Z.of_nat (length ds) =? k then
    (AllocOk ds,
     set_Devices (fun D => foldl (fun D d => <[d := Some cid]> D) D ds)
       (set_containerState (insert cid (mkContainer cid Unset ds)) a))
  else (NotEnoughDevices, set_containerState (insert cid (mkContainer cid Unset [])) a).
Proof.
  intros Hk. unfold allocateFreeDevicesIn.
  destruct (Z.eqb_spec k 0) as [->|Hne].
  - simpl. rewrite take_0. simpl. by destruct a.
  - rewrite collectFree_take by (simpl; lia). simpl. rewrite Nat.sub_0_r.
    destruct (Z.of_nat (length (take (Z.to_nat k) (freeIn it))) =? k); simpl; [|done].
    rewrite foldl_claim_Devices. f_equal.
    destruct a. unfold set_Devices, set_containerState. simpl. f_equal.
    apply map_eq. intros c.
    destruct (decide (c = cid)) as [->|Hc].
    + rewrite lookup_alter_eq. by rewrite !lookup_insert_eq.
    + rewrite lookup_alter_ne by done. by rewrite !lookup_insert_ne.
Qed.

Lemma length_freeIn_used (m : gmap Device (option ContainerID)) :
  (length (freeIn (map_to_list m)) +
   size (filter (fun p : Device * option ContainerID => is_Some (snd p)) m))%nat
  = size m.
Proof.
  induction m as [|d o m Hd IH] using map_ind.
  - by rewrite map_to_list_empty, map_filter_empty, map_size_empty.
  - rewrite (Permutation_length (freeIn_perm _ _ (map_to_list_insert m d o Hd))).
    rewrite map_size_insert_None by done. unfold freeIn in *.
    destruct o as [c|].
    + rewrite filter_cons_False by done.
      rewrite map_filter_insert_True by (simpl; eauto).
      rewrite map_size_insert_None by (by rewrite map_lookup_filter, Hd). lia.
    + rewrite filter_cons_True by done.
      rewrite map_filter_insert_False by (simpl; by intros [? ?]).
      rewrite delete_id by done. rewrite fmap_cons, length_cons. lia.
Qed.

Lemma length_freeDevices a :
  Z.of_nat (length (freeDevices a)) = Z.of_nat (size (Devices a)) - numUsedSlots a.
Proof.
  rewrite numUsedSlots_spec. pose proof (length_freeIn_used (Devices a)).
  unfold freeDevices. lia.
Qed.

Lemma used_foldl_claim cid ds (D : gmap Device (option ContainerID)) :
  NoDup ds ->
  (forall d, d ∈ ds -> D !! d = Some None) ->
  size (filter (fun p : Device * option ContainerID => is_Some (snd p))
          (foldl (fun D d => <[d := Some cid]> D) D ds)) =
  (size (filter (fun p : Device * option ContainerID => is_Some (snd p)) D)
   + length ds)%nat /\
  size (foldl (fun D d => <[d := Some cid]> D) D ds) = size D.
Proof.
  intros Hnd. revert D.
  induction Hnd as [|d ds Hd Hnd IH]; intros D Hfree; simpl; [split; lia|].
  destruct (IH (<[d := Some cid]> D)) as [IHu IHs].
  { intros d' Hd'. rewrite lookup_insert_ne by (intros ->; done).
    apply Hfree. by right. }
  rewrite IHu, IHs.
  assert (HDd : D !! d = Some None) by (apply Hfree; by left).
  split.
  - rewrite map_filter_insert_True by (simpl; eauto).
    rewrite map_size_insert_None; [lia|].
    by rewrite map_lookup_filter, HDd.
  - by rewrite map_size_insert_Some.
Qed.

Lemma take_free_in_view it (a : agentState) n :
  it ≡ₚ map_to_list (Devices a) ->
  NoDup (take n (freeIn it)) /\
  forall d, d ∈ take n (freeIn it) -> Devices a !! d = Some None.
Proof.
  intros Hperm. split.
  - eapply sublist_NoDup; [|apply sublist_take].
    apply NoDup_freeIn. rewrite Hperm. apply NoDup_fst_map_to_list.
  - intros d Hd. apply elem_of_map_to_list. rewrite <- Hperm.
    apply elem_of_freeIn. by apply (subseteq_take n).
Qed.

(** X6: for whatever order the view is visited in, [allocateFreeDevices]
    succeeds exactly when the requested number of slots is at most the
    size of the device view minus the used slots, whether the agent is
    enabled or not; a successful allocation of [k] slots raises the used
    slots by [k] and keeps the size of the view, a failed one leaves the
    used slots as they were. *)
Theorem allocateFreeDevices_accounting
    (a : agentState) (cid : ContainerID) (k : Z)
    (it : list (Device * option ContainerID)) :
  0 <= k ->
  it ≡ₚ map_to_list (Devices a) ->
  let r := allocateFreeDevicesIn it k cid a in
  (fst r <> NotEnoughDevices <-> k <= Z.of_nat (size (Devices a)) - numUsedSlots a) /\
  (fst r <> NotEnoughDevices -> numUsedSlots (snd r) = numUsedSlots a + k) /\
  (fst r = NotEnoughDevices -> numUsedSlots (snd r) = numUsedSlots a) /\
  size (Devices (snd r)) = size (Devices a).
Proof.
  intros Hk Hperm r. subst r. rewrite allocateFreeDevicesIn_eq by done. simpl.
  rewrite <- length_freeDevices.
  assert (Hlen : length (freeIn it) = length (freeDevices a)).
  { unfold freeDevices. by rewrite (freeIn_perm _ _ Hperm). }
  destruct (take_free_in_view it a (Z.to_nat k) Hperm) as [Hnd Hfree].
  destruct (used_foldl_claim cid _ (Devices a) Hnd Hfree) as [Hused Hsize].
  revert Hnd Hfree Hused Hsize.
  set (ds := take (Z.to_nat k) (freeIn it)). intros Hnd Hfree Hused Hsize.
  assert (Hds : length ds = Nat.min (Z.to_nat k) (length (freeDevices a))).
  { subst ds. by rewrite length_take, Hlen. }
  destruct (Z.eqb_spec (Z.of_nat (length ds)) k) as [E|E]; simpl.
  - split; [split; [intros _; lia|done]|].
    split; [|split; [done|exact Hsize]].
    intros _. rewrite !numUsedSlots_spec. simpl. simpl in Hused. rewrite Hused. lia.
  - split; [split; [done|intros; lia]|]. by repeat split.
Qed.

Lemma allocateFreeDevices_accounting_witness :
  numUsedSlots (snd (allocateFreeDevices 1 "c2" oneGpuAgent)) =
  numUsedSlots oneGpuAgent + 1.
Proof.
  destruct (allocateFreeDevices_accounting oneGpuAgent "c2" 1
              (map_to_list (Devices oneGpuAgent))) as (Hiff & Hok & _);
    [lia|done|].
  apply Hok, Hiff. vm_compute. discriminate.
Defined.

(** X7: allocating for a container that the aggregate neither tracks nor
    has on a device, and then deallocating that container, gives back the
    aggregate as it was, whether the allocation succeeded or not. *)
Theorem allocate_then_deallocate
    (a : agentState) (cid : ContainerID) (k : Z)
    (it : list (Device * option ContainerID)) :
  0 <= k ->
  it ≡ₚ map_to_list (Devices a) ->
  containerState a !! cid = None ->
  (forall d, Devices a !! d <> Some (Some cid)) ->
  deallocateContainer cid (snd (allocateFreeDevicesIn it k cid a)) = a.
Proof.
  intros Hk Hperm Hrec Hocc. rewrite allocateFreeDevicesIn_eq by done. simpl.
  destruct (take_free_in_view it a (Z.to_nat k) Hperm) as [_ Hfree].
  assert (Hrel : forall D : gmap Device (option ContainerID),
            (forall d, D !! d <> Some (Some cid)) -> release cid <$> D = D).
  { intros D HD. apply map_eq. intros d. rewrite lookup_fmap.
    destruct (D !! d) as [[c|]|] eqn:Hd; simpl; [|done|done].
    case_bool_decide; [|done]. subst c. by destruct (HD d). }
  destruct (Z.of_nat (length (take (Z.to_nat k) (freeIn it))) =? k);
    rewrite deallocateContainer_eq; simpl;
    destruct a; unfold set_Devices, set_containerState; simpl in *; f_equal.
  - apply map_eq. intros d. rewrite lookup_fmap, lookup_foldl_claim.
    destruct (decide (d ∈ take (Z.to_nat k) (freeIn it))) as [Hin|Hnin]; simpl.
    + rewrite bool_decide_true by done. symmetry. by apply Hfree.
    + rewrite <- lookup_fmap. by rewrite Hrel.
  - by rewrite delete_insert_id.
  - by apply Hrel.
  - by rewrite delete_insert_id.
Qed.

Lemma allocate_then_deallocate_witness :
  deallocateContainer "c2" (snd (allocateFreeDevices 1 "c2" busyAgent)) = busyAgent.
Proof.
  apply (allocate_then_deallocate busyAgent "c2" 1 (map_to_list (Devices busyAgent)));
    [lia|done|by vm_compute|].
  intros d Hd. busy Hd. apply lookup_singleton_Some in Hd as [_ Hd]. discriminate Hd.
Defined.

(** ** The slot transition in closed form *)

Lemma updateSlotDeviceView_eq k a s :
  slotStates a !! k = Some s ->
  updateSlotDeviceView k a =
  (set_Devices (settleView s) (set_slotStates (insert k (settle s)) a),
   settleEvents (containerAllocation a) s).
Proof.
  intros Hs. unfold updateSlotDeviceView, settle, settleView, settleEvents. rewrite Hs.
  assert (Hid : set_Devices (fun D => D) (set_slotStates (insert k s) a) = a).
  { destruct a. unfold set_Devices, set_slotStates. simpl in *. f_equal.
    exact (insert_id _ k _ Hs). }
  destruct s as [d [ad ae ue dr] [c|]]; destruct ad, ae, ue, dr; simpl;
    unfold slotEnabled_enabled; simpl; by rewrite ?Hid.
Qed.

Lemma settle_settle s : settle (settle s) = settle s.
Proof. destruct s as [d [[] [] [] []] c]; reflexivity. Qed.

Lemma settleView_settle s D : settleView (settle s) D = D.
Proof. destruct s as [d [[] [] [] []] c]; reflexivity. Qed.

Lemma settleEvents_settle owners s : settleEvents owners (settle s) = settleEvents owners s.
Proof. destruct s as [d [[] [] [] []] c]; reflexivity. Qed.

(** X8: running [updateSlotDeviceView] a second time on the same device
    changes nothing in the aggregate and publishes once more what the
    first run published. *)
Theorem updateSlotDeviceView_twice (k : Z) (a : agentState) :
  updateSlotDeviceView k (fst (updateSlotDeviceView k a)) = updateSlotDeviceView k a.
Proof.
  destruct (slotStates a !! k) as [s|] eqn:Hs.
  - rewrite (updateSlotDeviceView_eq k a s Hs). simpl.
    rewrite (updateSlotDeviceView_eq k _ (settle s)) by (simpl; apply lookup_insert_eq).
    simpl. rewrite settle_settle, settleEvents_settle. f_equal.
    unfold set_Devices, set_slotStates. simpl.
    by rewrite settleView_settle, insert_insert_eq.
  - unfold updateSlotDeviceView. rewrite Hs. simpl. by rewrite Hs.
Qed.

(** ** The device view and the slots *)

Lemma sameShape_refl a : sameShape a a.
Proof. by split. Qed.

Lemma sameShape_trans a b c : sameShape a b -> sameShape b c -> sameShape a c.
Proof.
  intros [Hd1 Hs1] [Hd2 Hs2]. split; [by rewrite Hd2|].
  intros k. by rewrite Hs2.
Qed.

Lemma sameShape_lookup a a' k s' :
  sameShape a a' -> slotStates a' !! k = Some s' ->
  exists s, slotStates a !! k = Some s /\ device s = device s' /\
            s_enabled s = s_enabled s'.
Proof.
  intros [_ Hs] Hs'. specialize (Hs k). rewrite Hs' in Hs. simpl in Hs.
  destruct (slotStates a !! k) as [s|]; [|done]. simpl in Hs.
  exists s. split; [done|]. split; congruence.
Qed.

Lemma sameShape_lookup_inv a a' k s :
  sameShape a a' -> slotStates a !! k = Some s ->
  exists s', slotStates a' !! k = Some s' /\ device s' = device s /\
             s_enabled s' = s_enabled s.
Proof.
  intros [_ Hs'] Hs. specialize (Hs' k). rewrite Hs in Hs'. simpl in Hs'.
  destruct (slotStates a' !! k) as [s'|]; [|done]. simpl in Hs'.
  exists s'. split; [done|]. split; congruence.
Qed.

Lemma viewInSync_sameShape a a' : sameShape a a' -> viewInSync a -> viewInSync a'.
Proof.
  intros Hshape (Hkey & Hview & Hen & Hdis).
  split; [|split; [|split]].
  - intros k s' Hs'. destruct (sameShape_lookup _ _ _ _ Hshape Hs') as (s & Hs & Hd & _).
    rewrite <- Hd. by apply Hkey.
  - intros d. rewrite <- elem_of_dom. destruct Hshape as [Hdom Hsl]. rewrite Hdom.
    rewrite elem_of_dom, Hview. split; intros (s & Hs & Hd & Had).
    + destruct (sameShape_lookup_inv a a' _ _ (conj Hdom Hsl) Hs) as (s' & Hs' & Hd' & He').
      exists s'. by rewrite Hd', He'.
    + destruct (sameShape_lookup a a' _ _ (conj Hdom Hsl) Hs) as (s' & Hs' & Hd' & He').
      exists s'. by rewrite Hd', He'.
  - intros k s' Hs' He.
    destruct (sameShape_lookup _ _ _ _ Hshape Hs') as (s & Hs & _ & Hfl).
    rewrite <- Hfl in *. by apply (Hen k s).
  - intros k s' Hs' He Hdr.
    destruct (sameShape_lookup _ _ _ _ Hshape Hs') as (s & Hs & _ & Hfl).
    rewrite <- Hfl in *. by apply (Hdis k s).
Qed.

Lemma sameShape_insert a k s s' :
  slotStates a !! k = Some s -> device s' = device s -> s_enabled s' = s_enabled s ->
  sameShape a (set_slotStates (insert k s') a).
Proof.
  intros Hs Hd He. split; [done|]. intros j. simpl.
  destruct (decide (j = k)) as [->|Hne].
  - rewrite lookup_insert_eq, Hs. simpl. by rewrite Hd, He.
  - by rewrite lookup_insert_ne.
Qed.

Lemma containerStateChanged_shape c a : sameShape a (containerStateChanged c a).
Proof.
  unfold containerStateChanged.
  set (step := fun (a : agentState) (d : Device) =>
                 match slotStates a !! ID d with
                 | Some s =>
                     let s0 := set_containerID (Some (c_ID c)) s in
                     let s1 := if bool_decide (c_State c = Terminated)
                               then set_containerID None s0 else s0 in
                     set_slotStates (insert (ID d) s1) a
                 | None => a
                 end).
  assert (Hloop : forall ds a, sameShape a (foldl step a ds)).
  { induction ds as [|d ds IH]; intros b; simpl; [apply sameShape_refl|].
    eapply sameShape_trans; [|apply IH]. unfold step.
    destruct (slotStates b !! ID d) as [s|] eqn:Hs; [|apply sameShape_refl].
    apply (sameShape_insert b (ID d) s); [done| |]; by case_bool_decide. }
  specialize (Hloop (c_Devices c) a). destruct Hloop as [Hdom Hsl].
  case_bool_decide; by split.
Qed.

Lemma startContainer_loop_shape c pre a a' :
  startContainer_loop c pre a = (None, a') -> sameShape a a'.
Proof.
  intros Hloop. destruct (startContainer_loop_ok c pre a a' Hloop)
    as (Hout & Hother & Hpre & _).
  unfold outsideSlotsAndRecords in Hout. split; [by inversion Hout|].
  intros k. destruct (decide (k ∈ ID <$> pre)) as [Hin|Hnin].
  - destruct (Hpre k Hin) as (s & Hs & _ & _ & Hs'). by rewrite Hs, Hs'.
  - by rewrite Hother.
Qed.

Lemma startContainer_shape msg a : sameShape a (snd (startContainer msg a)).
Proof.
  unfold startContainer.
  destruct (startContainer_loop _ _ a) as [[e|] a'] eqn:Hloop; simpl.
  - apply startContainer_loop_error in Hloop as (pre & d & post & _ & _ & Hpre & _).
    exact (startContainer_loop_shape _ pre _ _ Hpre).
  - apply startContainer_loop_shape in Hloop. destruct Hloop. by split.
Qed.

Lemma allocateFreeDevicesIn_shape it k cid a :
  0 <= k -> it ≡ₚ map_to_list (Devices a) ->
  sameShape a (snd (allocateFreeDevicesIn it k cid a)).
Proof.
  intros Hk Hperm. rewrite allocateFreeDevicesIn_eq by done. simpl.
  destruct (take_free_in_view it a (Z.to_nat k) Hperm) as [_ Hfree].
  destruct (_ =? _); simpl; (split; [|done]); [|done]. simpl.
  apply set_eq. intros d. rewrite !elem_of_dom, lookup_foldl_claim.
  destruct (decide (d ∈ take (Z.to_nat k) (freeIn it))) as [Hin|Hnin]; [|done].
  rewrite (Hfree d Hin). split; eauto.
Qed.

Lemma deallocateContainer_shape i a : sameShape a (deallocateContainer i a).
Proof.
  rewrite deallocateContainer_eq. split; [|done]. simpl. apply dom_fmap_L.
Qed.

Lemma clearDevices_shape {A} (R : gmap ContainerID A) a :
  (forall d, is_Some (Devices a !! d) -> is_Some (slotStates a !! ID d)) ->
  exists st, clearDevices R a = Some st /\ sameShape a (fst st).
Proof.
  intros Hslot. unfold clearDevices. generalize (Devices a). intros m.
  induction m as [|d o m Hd Hfold IH] using gmap_fold_ind.
  - rewrite map_fold_empty. exists (a, false). split; [done|apply sameShape_refl].
  - rewrite Hfold. destruct IH as (st & -> & Hshape). simpl.
    destruct (Devices (fst st) !! d) as [[c|]|] eqn:Hv; [|by exists st..].
    destruct (R !! c); [by exists st|].
    assert (Hdom : is_Some (Devices a !! d)).
    { apply elem_of_dom. destruct Hshape as [<- _]. apply elem_of_dom. eauto. }
    destruct (Hslot d Hdom) as [s Hs].
    destruct (sameShape_lookup_inv _ _ _ _ Hshape Hs) as (s' & Hs' & Hdev & Hfl).
    rewrite Hs'. simpl. eexists. split; [done|]. simpl.
    eapply sameShape_trans; [exact Hshape|].
    eapply sameShape_trans;
      [|apply (sameShape_insert (set_Devices (insert d None) (fst st)) (ID d) s');
        [done..]].
    split; [|done]. simpl. apply dom_insert_lookup_L. eauto.
Qed.

Lemma clearUnlessRecovered_shape {A} (R : gmap ContainerID A) a :
  (forall d, is_Some (Devices a !! d) -> is_Some (slotStates a !! ID d)) ->
  exists r, clearUnlessRecovered R a = Some r /\ sameShape a (fst r).
Proof.
  intros Hslot. unfold clearUnlessRecovered.
  destruct (clearDevices_shape R a Hslot) as (st & -> & Hshape). simpl.
  eexists. split; [done|].
  rewrite clearAllocations_fst, clearContainers_fst, clearSlots_fst.
  eapply sameShape_trans; [exact Hshape|]. split; [done|].
  intros k. simpl. rewrite lookup_fmap. by destruct (slotStates (fst st) !! k).
Qed.

Lemma settle_device s : device (settle s) = device s.
Proof. destruct s as [d [[] [] [] []] c]; reflexivity. Qed.

Lemma settle_containerID s : containerID (settle s) = containerID s.
Proof. destruct s as [d [[] [] [] []] c]; reflexivity. Qed.

Lemma settle_enabled s :
  slotEnabled_enabled (s_enabled (settle s)) = slotEnabled_enabled (s_enabled s) /\
  se_draining (s_enabled (settle s)) = se_draining (s_enabled s).
Proof. destruct s as [d [[] [] [] []] c]; by split. Qed.

Lemma settle_added s :
  deviceAdded (s_enabled (settle s)) =
  slotEnabled_enabled (s_enabled s) ||
  (se_draining (s_enabled s) && deviceAdded (s_enabled s)).
Proof. destruct s as [d [[] [] [] []] c]; reflexivity. Qed.

Lemma settleView_other s D d : d <> device s -> settleView s D !! d = D !! d.
Proof.
  intros Hne. unfold settleView.
  destruct (_ && negb (deviceAdded _)); [by rewrite lookup_insert_ne|].
  destruct (_ && _); [by rewrite lookup_delete_ne|done].
Qed.

Lemma settleView_own s D :
  (is_Some (D !! device s) <-> deviceAdded (s_enabled s) = true) ->
  is_Some (settleView s D !! device s) <-> deviceAdded (s_enabled (settle s)) = true.
Proof.
  unfold settleView, settle. intros HD.
  destruct s as [d [ad ae ue dr] c]; unfold slotEnabled_enabled in *; simpl in *.
  destruct ad, ae, ue, dr; simpl;
    rewrite ?lookup_insert_eq, ?lookup_delete_eq; try done;
    split; eauto; try done; by intros [? ?].
Qed.

Lemma patchFlags_fields msg s :
  device (patchFlags msg s) = device s /\
  containerID (patchFlags msg s) = containerID s /\
  deviceAdded (s_enabled (patchFlags msg s)) = deviceAdded (s_enabled s) /\
  agentEnabled (s_enabled (patchFlags msg s)) = agentEnabled (s_enabled s) /\
  userEnabled (s_enabled (patchFlags msg s)) = default (userEnabled (s_enabled s)) (p_enabled msg) /\
  se_draining (s_enabled (patchFlags msg s)) = default (se_draining (s_enabled s)) (p_drain msg).
Proof. unfold patchFlags. by destruct (p_enabled msg), (p_drain msg). Qed.

(** [patchSlotStateInner] on a slot kept under the ID of its device. *)
Lemma patchSlotStateInner_eq msg k a s :
  slotStates a !! k = Some s -> ID (device s) = k ->
  patchSlotStateInner msg k a =
  Some (mkSlotSummary (pretty k) (device s)
          (slotEnabled_enabled (s_enabled (patchFlags msg s)))
          (c ← containerID s; containerState a !! c)
          (se_draining (s_enabled (patchFlags msg s))),
        set_Devices (settleView (patchFlags msg s))
          (set_slotStates (insert k (settle (patchFlags msg s))) a),
        settleEvents (containerAllocation a) (patchFlags msg s)).
Proof.
  intros Hs Hk. unfold patchSlotStateInner. rewrite Hs. simpl.
  change (match p_drain msg with
          | Some d =>
              set_slot_enabled (set_draining d)
                match p_enabled msg with
                | Some e => set_slot_enabled (set_userEnabled e) s
                | None => s
                end
          | None =>
              match p_enabled msg with
              | Some e => set_slot_enabled (set_userEnabled e) s
              | None => s
              end
          end) with (patchFlags msg s).
  destruct (patchFlags_fields msg s) as (Hd & Hc & _).
  destruct (settle_enabled (patchFlags msg s)) as [He Hdr].
  rewrite Hd, Hk.
  rewrite (updateSlotDeviceView_eq k _ (patchFlags msg s)) by apply lookup_insert_eq.
  simpl. unfold getSlotSummary. simpl. rewrite insert_insert_eq, lookup_insert_eq. simpl.
  rewrite settle_device, settle_containerID, He, Hdr, Hd, Hc, Hk.
  unfold set_Devices, set_slotStates. simpl. by rewrite insert_insert_eq.
Qed.

Lemma viewInSync_settle a k s s1 :
  viewInSync a -> slotStates a !! k = Some s ->
  device s1 = device s ->
  deviceAdded (s_enabled s1) = deviceAdded (s_enabled s) ->
  viewInSync (set_Devices (settleView s1) (set_slotStates (insert k (settle s1)) a)).
Proof.
  intros (Hkey & Hview & Hen & Hdis) Hs Hd Had.
  pose proof (Hkey k s Hs) as Hk.
  assert (Hown : is_Some (Devices a !! device s1) <-> deviceAdded (s_enabled s1) = true).
  { rewrite Hd, Had, Hview, Hk. split.
    - intros (s0 & Hs0 & _ & Hadd). congruence.
    - intros Hadd. by exists s. }
  split; [|split; [|split]]; simpl.
  - intros j s' Hs'. simpl in Hs'. destruct (decide (j = k)) as [->|Hne].
    + rewrite lookup_insert_eq in Hs'. inversion Hs'; subst s'.
      by rewrite settle_device, Hd.
    + rewrite lookup_insert_ne in Hs' by done. by apply Hkey.
  - intros d. destruct (decide (d = device s1)) as [->|Hne].
    + rewrite (settleView_own s1 _ Hown), Hd, Hk, lookup_insert_eq. split.
      * intros Hadd. exists (settle s1). by rewrite settle_device.
      * intros (s' & Hs' & _ & Hadd). by inversion Hs'; subst s'.
    + rewrite settleView_other by done. rewrite Hview.
      destruct (decide (ID d = k)) as [Hdk|Hdk].
      * rewrite Hdk, lookup_insert_eq. split.
        -- intros (s0 & Hs0 & Hd0 & _). congruence.
        -- intros (s0 & Hs0 & Hd0 & _). inversion Hs0; subst s0.
           rewrite settle_device in Hd0. congruence.
      * by rewrite lookup_insert_ne.
  - intros j s' Hs' He. destruct (decide (j = k)) as [->|Hne].
    + rewrite lookup_insert_eq in Hs'. inversion Hs'; subst s'.
      rewrite settle_added. destruct (settle_enabled s1) as [<- _]. by rewrite He.
    + rewrite lookup_insert_ne in Hs' by done. by apply (Hen j).
  - intros j s' Hs' He Hdr. destruct (decide (j = k)) as [->|Hne].
    + rewrite lookup_insert_eq in Hs'. inversion Hs'; subst s'.
      rewrite settle_added. destruct (settle_enabled s1) as [<- <-].
      by rewrite He, Hdr.
    + rewrite lookup_insert_ne in Hs' by done. by apply (Hdis j).
Qed.

Lemma patchSlotState_sync msg a :
  viewInSync a -> exists r, patchSlotState msg a = Some r /\ viewInSync (snd (fst r)).
Proof.
  intros Hsync. unfold patchSlotState.
  destruct (slotStates a !! p_id msg) as [s|] eqn:Hs; [|by eexists].
  rewrite (patchSlotStateInner_eq msg _ a s Hs) by (by apply Hsync).
  simpl. eexists. split; [done|]. simpl.
  destruct (patchFlags_fields msg s) as (Hd & _ & Had & _).
  by apply (viewInSync_settle a _ s).
Qed.

Lemma agentStarted_sync i m u ds :
  NoDup (ID <$> ds) -> viewInSync (fst (agentStarted ds (newAgentState i m u))).
Proof.
  intros Hnd. rewrite agentStarted_eq. simpl.
  assert (Hslot : forall k s,
            foldl (fun (S : gmap Z slot) d => <[ID d := freshSlot d]> S) ∅ ds !! k = Some s
            <-> exists d, d ∈ ds /\ ID d = k /\ freshSlot d = s).
  { intros k s. rewrite (lookup_foldl_insert ID freshSlot) by done.
    rewrite lookup_empty. split; [intros [?|[_ ?]]; done|by left]. }
  split; [|split; [|split]]; simpl.
  - intros k s (d & _ & <- & <-)%Hslot. done.
  - intros d. rewrite lookup_foldl_insert_const, lookup_empty.
    destruct (decide (d ∈ ds)) as [Hin|Hnin].
    + split; [|eauto]. intros _. exists (freshSlot d). split; [|done].
      apply Hslot. by exists d.
    + split; [by intros [? ?]|]. intros (s & (d' & Hin & Hid & <-)%Hslot & Hd & _).
      simpl in Hd. by subst d'.
  - by intros k s (d & _ & _ & <-)%Hslot.
  - by intros k s (d & _ & _ & <-)%Hslot.
Qed.

Lemma elem_of_keys `{Countable K} {V} (m : gmap K V) k :
  k ∈ (map_to_list m).*1 <-> is_Some (m !! k).
Proof.
  rewrite list_elem_of_fmap. split.
  - intros ([k' v] & -> & Hin). apply elem_of_map_to_list in Hin. eauto.
  - intros [v Hv]. exists (k, v). split; [done|]. by apply elem_of_map_to_list.
Qed.

Lemma list_bind_ext_in {X Y} (f g : X -> list Y) (l : list X) :
  (forall x, x ∈ l -> f x = g x) -> l ≫= f = l ≫= g.
Proof.
  induction l as [|x l IH]; intros Hfg; [done|].
  rewrite !bind_cons, IH, Hfg; [done|by left|]. intros y Hy. apply Hfg. by right.
Qed.

(** The loop of [patchAllSlotsState] from any accumulated result and
    events, over keys of slots visited once each. *)
Lemma patchAllSlotsState_loop msg it :
  forall (res : gmap string SlotSummary) a ev,
    viewInSync a -> NoDup it ->
    (forall k, k ∈ it -> is_Some (slotStates a !! k)) ->
    exists res' a',
      foldl (fun acc k =>
               st ← acc;
               slotState ← slotStates (snd (fst st)) !! k;
               r ← patchSlotStateInner
                     (mkPatch (ID (device slotState)) (pa_enabled msg) (pa_drain msg))
                     k (snd (fst st));
               Some (<[ss_ID (fst (fst r)) := fst (fst r)]> (fst (fst st)),
                     snd (fst r), snd st ++ snd r))
            (Some (res, a, ev)) it
      = Some (res', a', ev ++ (it ≫= patchedEvents msg a)) /\
      viewInSync a' /\
      containerState a' = containerState a /\
      containerAllocation a' = containerAllocation a /\
      (forall k, slotStates a' !! k =
         if decide (k ∈ it) then patchedSlot msg <$> slotStates a !! k
         else slotStates a !! k) /\
      (forall k s, k ∈ it -> slotStates a !! k = Some s ->
         res' !! pretty k = Some (patchedSummary msg a k s)) /\
      (forall key, key ∉ (pretty <$> it : list string) -> res' !! key = res !! key).
Proof.
  induction it as [|k it IH]; intros res a ev Hsync Hnd Hkeys.
  - exists res, a. simpl. rewrite app_nil_r.
    do 4 (split; [done|]). split; [|split].
    + intros k. destruct (decide (k ∈ [])) as [Hin|_]; [by apply elem_of_nil in Hin|done].
    + intros k s Hk. by apply elem_of_nil in Hk.
    + done.
  - apply NoDup_cons in Hnd as [Hk Hnd].
    destruct (Hkeys k) as [s Hs]; [by left|].
    pose proof (proj1 Hsync k s Hs) as Hid.
    cbn [foldl]. cbn [mbind option_bind fst snd]. rewrite Hs. cbn [mbind option_bind].
    rewrite (patchSlotStateInner_eq _ k a s Hs Hid). cbn [mbind option_bind fst snd ss_ID].
    set (s1 := patchFlags (mkPatch (ID (device s)) (pa_enabled msg) (pa_drain msg)) s).
    destruct (patchFlags_fields
                (mkPatch (ID (device s)) (pa_enabled msg) (pa_drain msg)) s)
      as (Hd & Hc & Had & _). fold s1 in Hd, Hc, Had.
    set (a1 := set_Devices (settleView s1) (set_slotStates (insert k (settle s1)) a)).
    assert (Hsync1 : viewInSync a1) by (by apply (viewInSync_settle a k s)).
    assert (Hother : forall j, j ∈ it -> slotStates a1 !! j = slotStates a !! j).
    { intros j Hj. simpl. rewrite lookup_insert_ne; [done|]. by intros ->. }
    destruct (IH (<[pretty k :=
                      mkSlotSummary (pretty k) (device s)
                        (slotEnabled_enabled (s_enabled s1))
                        (c ← containerID s; containerState a !! c)
                        (se_draining (s_enabled s1))]> res)
                 a1 (ev ++ settleEvents (containerAllocation a) s1) Hsync1 Hnd)
      as (res' & a' & Hloop & Hsync' & HCS & HCA & Hslots & Hres & Hkeep).
    { intros j Hj. rewrite Hother by done. apply Hkeys. by right. }
    exists res', a'. split.
    { rewrite Hloop. f_equal. f_equal. rewrite <- app_assoc. f_equal.
      rewrite bind_cons. f_equal.
      - unfold patchedEvents. rewrite Hs. unfold patchedSlot. fold s1.
        by rewrite settleEvents_settle.
      - apply list_bind_ext_in. intros j Hj. unfold patchedEvents.
        by rewrite Hother. }
    split; [done|]. split; [done|]. split; [done|].
    assert (Hsum : res' !! pretty k = Some (patchedSummary msg a k s)).
    { rewrite Hkeep.
      - rewrite lookup_insert_eq. unfold patchedSummary, patchedSlot. fold s1.
        by destruct (settle_enabled s1) as [-> ->].
      - intros (j & Heq & Hj)%list_elem_of_fmap. apply pretty_Z_inj in Heq.
        by subst j. }
    split; [|split].
    + intros j. rewrite Hslots. destruct (decide (j = k)) as [->|Hne].
      * rewrite decide_False by done. rewrite decide_True by (by left).
        simpl. rewrite lookup_insert_eq, Hs. done.
      * destruct (decide (j ∈ it)) as [Hj|Hj].
        -- rewrite decide_True by (by right). by rewrite Hother.
        -- rewrite decide_False by (by intros [?|?]%elem_of_cons).
           simpl. by rewrite lookup_insert_ne.
    + intros j sj [->|Hj]%elem_of_cons Hsj.
      * by replace sj with s by congruence.
      * rewrite (Hres j sj Hj) by (by rewrite Hother).
        unfold patchedSummary. by rewrite HCS || done.
    + intros key Hkey. rewrite fmap_cons in Hkey.
      apply not_elem_of_cons in Hkey as [Hne Hkey].
      rewrite Hkeep by done. by rewrite lookup_insert_ne.
Qed.

Lemma patchAllSlotsState_sync msg a it :
  viewInSync a -> it ≡ₚ (map_to_list (slotStates a)).*1 ->
  exists r, patchAllSlotsStateIn it msg a = Some r /\ viewInSync (snd (fst r)).
Proof.
  intros Hsync Hperm.
  destruct (patchAllSlotsState_loop msg it ∅ a [] Hsync)
    as (result & a' & Hloop & Hsync' & _).
  - rewrite Hperm. apply NoDup_fst_map_to_list.
  - intros k Hk. apply elem_of_keys. by rewrite <- Hperm.
  - eexists. split; [exact Hloop|done].
Qed.

Lemma reachable_sync a : reachable a -> viewInSync a.
Proof.
  induction 1 as [i m u ds Hnd | msg a r _ IH Hp | c a _ IH | msg a _ IH
                  | it k cid a _ IH Hk Hperm | i a _ IH | a _ IH | drain a _ IH
                  | it msg a r _ IH Hperm Hp | R a r _ IH Hc].
  - by apply agentStarted_sync.
  - destruct (patchSlotState_sync msg a IH) as (r' & Hr' & Hsync). congruence.
  - eapply viewInSync_sameShape; [apply containerStateChanged_shape|done].
  - eapply viewInSync_sameShape; [apply startContainer_shape|done].
  - eapply viewInSync_sameShape; [by apply allocateFreeDevicesIn_shape|done].
  - eapply viewInSync_sameShape; [apply deallocateContainer_shape|done].
  - done.
  - done.
  - destruct (patchAllSlotsState_sync msg a it IH Hperm) as (r' & Hr' & Hsync).
    congruence.
  - destruct (clearUnlessRecovered_shape R a) as (r' & Hr' & Hshape).
    { intros d (s & Hs & _)%IH. eauto. }
    eapply viewInSync_sameShape; [|exact IH]. congruence.
Qed.

(** X9: in every aggregate that the operations build from a new agent
    that registered devices with pairwise distinct IDs, the device view
    agrees with the slots: each slot is kept under the ID of its device,
    the view holds exactly the devices of the slots flagged as added,
    every enabled slot is in the view and no slot that is neither enabled
    nor draining is. *)
Theorem reachable_viewInSync (a : agentState) : reachable a -> viewInSync a.
Proof. apply reachable_sync. Qed.

Lemma reachable_viewInSync_witness :
  viewInSync (snd (startContainer (mkStart c1Running "alloc-1") oneGpuAgent)).
Proof.
  apply reachable_viewInSync, reach_start.
  apply (reach_started "agent" 0 7%N [gpu 0]).
  vm_compute. apply NoDup_singleton.
Defined.

(** X10: on every aggregate that the operations build from a new agent
    that registered devices with pairwise distinct IDs, [patchSlotState],
    [patchAllSlotsState] in whatever order it visits the slots, and
    [clearUnlessRecovered] return: none of them dereferences a missing
    slot. *)
Theorem reachable_no_missing_slot (a : agentState) :
  reachable a ->
  (forall msg, is_Some (patchSlotState msg a)) /\
  (forall msg it, it ≡ₚ (map_to_list (slotStates a)).*1 ->
     is_Some (patchAllSlotsStateIn it msg a)) /\
  (forall recovered : gmap ContainerID unit,
     is_Some (clearUnlessRecovered recovered a)).
Proof.
  intros Hsync%reachable_sync. split; [|split].
  - intros msg. destruct (patchSlotState_sync msg a Hsync) as (r & -> & _). eauto.
  - intros msg it Hperm.
    destruct (patchAllSlotsState_sync msg a it Hsync Hperm) as (r & -> & _). eauto.
  - intros R. destruct (clearUnlessRecovered_shape R a) as (r & -> & _); [|eauto].
    destruct Hsync as (_ & Hview & _). intros d (s & Hs & _)%Hview. eauto.
Qed.

Lemma reachable_no_missing_slot_witness :
  is_Some (patchSlotState (mkPatch 0 (Some false) None)
             (snd (startContainer (mkStart c1Running "alloc-1") oneGpuAgent))).
Proof.
  apply reachable_no_missing_slot, reach_start.
  apply (reach_started "agent" 0 7%N [gpu 0]).
  vm_compute. apply NoDup_singleton.
Defined.

(** ** Patching one slot *)

(** X11: on an aggregate whose view agrees with its slots,
    [patchSlotState] for an ID with no slot returns the error and changes
    nothing; for the ID of a slot it returns the summary of that slot with
    the patched flags, changes no other slot, no other device of the view,
    no record and no owner entry; afterwards the device of the slot is in
    the view exactly when the slot is enabled, or is draining and was in
    the view before; a device that enters the view gets the occupant of
    the slot; a slot left enabled or draining publishes nothing. *)
Theorem patchSlotState_effect (a : agentState) (msg : patchSlotStateMsg) :
  viewInSync a ->
  (slotStates a !! p_id msg = None ->
     patchSlotState msg a = Some (inl (SlotNotFound (p_id msg)), a, [])) /\
  (forall s, slotStates a !! p_id msg = Some s ->
     exists summary a' ev,
       patchSlotState msg a = Some (inr summary, a', ev) /\
       ss_ID summary = pretty (p_id msg) /\
       ss_Device summary = device s /\
       ss_Enabled summary =
         agentEnabled (s_enabled s) &&
         default (userEnabled (s_enabled s)) (p_enabled msg) /\
       ss_Draining summary = default (se_draining (s_enabled s)) (p_drain msg) /\
       ss_Container summary = (c ← containerID s; containerState a !! c) /\
       (forall k, k <> p_id msg -> slotStates a' !! k = slotStates a !! k) /\
       (forall d, d <> device s -> Devices a' !! d = Devices a !! d) /\
       containerState a' = containerState a /\
       containerAllocation a' = containerAllocation a /\
       (is_Some (Devices a' !! device s) <->
          ss_Enabled summary = true \/
          (ss_Draining summary = true /\ is_Some (Devices a !! device s))) /\
       (Devices a !! device s = None -> ss_Enabled summary = true ->
          Devices a' !! device s = Some (containerID s)) /\
       (ss_Enabled summary = true \/ ss_Draining summary = true -> ev = [])).
Proof.
  intros (Hkey & Hview & Hen & Hdis). unfold patchSlotState. split.
  - by intros ->.
  - intros s Hs. rewrite Hs. rewrite (patchSlotStateInner_eq msg _ a s Hs) by eauto.
    simpl. do 3 eexists. split; [done|]. simpl.
    destruct (patchFlags_fields msg s) as (Hd & Hc & Had & Hae & Hue & Hdr).
    assert (Hown : is_Some (Devices a !! device s) <-> deviceAdded (s_enabled s) = true).
    { rewrite Hview, (Hkey _ _ Hs). split.
      - intros (s0 & Hs0 & _ & Hadd). congruence.
      - intros Hadd. by exists s. }
    set (s1 := patchFlags msg s) in *.
    assert (Hen1 : slotEnabled_enabled (s_enabled s1) =
                   agentEnabled (s_enabled s) &&
                   default (userEnabled (s_enabled s)) (p_enabled msg)).
    { unfold slotEnabled_enabled. by rewrite Hae, Hue. }
    split; [done|]. split; [done|]. split; [done|]. split; [done|]. split; [done|].
    split; [intros k Hk; by rewrite lookup_insert_ne|].
    split; [intros d Hne; apply settleView_other; by rewrite Hd|].
    split; [done|]. split; [done|].
    split; [|split].
    + rewrite <- Hd. rewrite settleView_own by (by rewrite Hd, Had).
      rewrite settle_added, Had, Hd, Hown.
      destruct (slotEnabled_enabled (s_enabled s1)),
        (se_draining (s_enabled s1)), (deviceAdded (s_enabled s)); simpl;
        split; try done; eauto; intros [?|[? ?]]; done.
    + intros Hnone Hen'. unfold settleView.
      assert (Hnot : deviceAdded (s_enabled s1) = false).
      { rewrite Had. destruct (deviceAdded (s_enabled s)); [|done].
        destruct Hown as [_ Hown]. destruct (Hown eq_refl) as [o Ho]. congruence. }
      rewrite Hnot, Hen'. simpl. by rewrite Hd, Hc, lookup_insert_eq.
    + unfold settleEvents. intros [->| ->]; simpl; [done|].
      by rewrite andb_false_r.
Qed.

Lemma patchSlotState_effect_witness :
  exists summary a' ev,
    patchSlotState (mkPatch 0 (Some false) None) oneGpuAgent =
      Some (inr summary, a', ev) /\
    ss_Enabled summary = false /\ ss_Draining summary = false.
Proof.
  destruct (patchSlotState_effect oneGpuAgent (mkPatch 0 (Some false) None))
    as [_ Hslot].
  - apply reachable_sync. apply (reach_started "agent" 0 7%N [gpu 0]).
    vm_compute. apply NoDup_singleton.
  - destruct (Hslot (freshSlot (gpu 0))) as
      (summary & a' & ev & Heq & _ & _ & Hen & Hdr & _); [by vm_compute|].
    exists summary, a', ev. split; [exact Heq|]. split; [exact Hen|exact Hdr].
Defined.

(** ** Container events *)

Lemma lookup_foldl_set_occupant (o : option ContainerID) (step : agentState -> Device -> agentState)
    ds a :
  (forall a d, step a d =
     match slotStates a !! ID d with
     | Some s => set_slotStates (insert (ID d) (set_containerID o s)) a
     | None => a
     end) ->
  (Devices (foldl step a ds), containerState (foldl step a ds),
   containerAllocation (foldl step a ds)) =
  (Devices a, containerState a, containerAllocation a) /\
  forall k, slotStates (foldl step a ds) !! k =
    if decide (k ∈ ID <$> ds) then set_containerID o <$> slotStates a !! k
    else slotStates a !! k.
Proof.
  intros Hstep. revert a. induction ds as [|d ds IH]; intros a; simpl.
  - split; [done|]. intros k.
    destruct (decide (k ∈ [])) as [Hin|_]; [by apply elem_of_nil in Hin|done].
  - destruct (IH (step a d)) as [Hrest Hslots]. rewrite Hrest. split.
    + rewrite Hstep. by destruct (slotStates a !! ID d).
    + intros k. rewrite Hslots, Hstep.
      change (list_fmap Device Z ID ds) with (ID <$> ds).
      destruct (decide (k = ID d)) as [->|Hne].
      * rewrite (decide_True (P := ID d ∈ ID d :: (ID <$> ds))) by (by left).
        destruct (slotStates a !! ID d) as [s|] eqn:Hs; simpl.
        -- rewrite lookup_insert_eq. simpl. by destruct (decide _).
        -- rewrite Hs. by destruct (decide _).
      * assert (Hsame : slotStates
                          match slotStates a !! ID d with
                          | Some s => set_slotStates (insert (ID d) (set_containerID o s)) a
                          | None => a
                          end !! k = slotStates a !! k).
        { destruct (slotStates a !! ID d); simpl; [by rewrite lookup_insert_ne|done]. }
        rewrite Hsame.
        destruct (decide (k ∈ ID <$> ds)) as [Hin|Hnin].
        -- by rewrite decide_True by (by right).
        -- rewrite decide_False; [done|]. by intros [?|?]%elem_of_cons.
Qed.

Lemma containerStateChanged_eq c a :
  Devices (containerStateChanged c a) = Devices a /\
  containerAllocation (containerStateChanged c a) = containerAllocation a /\
  containerState (containerStateChanged c a) =
    (if bool_decide (c_State c = Terminated) then delete (c_ID c) (containerState a)
     else <[c_ID c := c]> (containerState a)) /\
  forall k, slotStates (containerStateChanged c a) !! k =
    if decide (k ∈ ID <$> c_Devices c)
    then set_containerID (occupantFor c) <$> slotStates a !! k
    else slotStates a !! k.
Proof.
  unfold containerStateChanged.
  match goal with |- context [foldl ?f a (c_Devices c)] => set (step := f) end.
  destruct (lookup_foldl_set_occupant (occupantFor c) step (c_Devices c) a)
    as [Hrest Hslots].
  { intros b d. unfold step, occupantFor.
    destruct (slotStates b !! ID d); [|done]. by case_bool_decide. }
  inversion Hrest as [[HD HC HA]].
  case_bool_decide; simpl; rewrite ?HD, ?HC, ?HA;
    (split; [done|]); (split; [done|]); (split; [|exact Hslots]); [|done].
  by rewrite delete_insert_eq.
Qed.

(** X12: [containerStateChanged] never touches the device view or the
    container-to-allocation map.  For a terminated container it drops the
    record and empties the slot of each of its devices that has a slot;
    for any other state it installs the record and makes the container
    the occupant of those slots, whatever they held and whether they are
    enabled or not.  Devices without a slot are skipped and every other
    slot is as before. *)
Theorem containerStateChanged_effect (c : Container) (a : agentState) :
  let a' := containerStateChanged c a in
  Devices a' = Devices a /\
  containerAllocation a' = containerAllocation a /\
  (c_State c = Terminated ->
     containerState a' = delete (c_ID c) (containerState a) /\
     forall d s, d ∈ c_Devices c -> slotStates a !! ID d = Some s ->
       slotStates a' !! ID d = Some (set_containerID None s)) /\
  (c_State c <> Terminated ->
     containerState a' = <[c_ID c := c]> (containerState a) /\
     forall d s, d ∈ c_Devices c -> slotStates a !! ID d = Some s ->
       slotStates a' !! ID d = Some (set_containerID (Some (c_ID c)) s)) /\
  (forall d, d ∈ c_Devices c -> slotStates a !! ID d = None ->
     slotStates a' !! ID d = None) /\
  (forall k, k ∉ ID <$> c_Devices c -> slotStates a' !! k = slotStates a !! k).
Proof.
  intros a'. subst a'.
  destruct (containerStateChanged_eq c a) as (HD & HA & HC & HS).
  assert (Hin : forall d, d ∈ c_Devices c -> ID d ∈ ID <$> c_Devices c).
  { intros d Hd. apply list_elem_of_fmap. by exists d. }
  split; [done|]. split; [done|]. unfold occupantFor in HS.
  split; [|split; [|split]].
  - intros Ht. rewrite HC, bool_decide_true by done. split; [done|].
    intros d s Hd Hs. rewrite HS, decide_True, Hs by auto. simpl.
    by rewrite bool_decide_true.
  - intros Ht. rewrite HC, bool_decide_false by done. split; [done|].
    intros d s Hd Hs. rewrite HS, decide_True, Hs by auto. simpl.
    by rewrite bool_decide_false.
  - intros d Hd Hs. by rewrite HS, decide_True, Hs by auto.
  - intros k Hk. by rewrite HS, decide_False.
Qed.

(** ** Starting a container on free slots *)

Lemma startContainer_inner_free c k a s :
  slotStates a !! k = Some s ->
  slotEnabled_enabled (s_enabled s) = true -> containerID s = None ->
  startContainer_inner c k a =
  (None, set_containerState (insert (c_ID c) c)
           (set_slotStates (insert k (set_containerID (Some (c_ID c)) s)) a)).
Proof.
  intros Hs He Hc. unfold startContainer_inner. by rewrite Hs, He, Hc.
Qed.

Lemma startContainer_loop_None c ds a :
  (exists a', startContainer_loop c ds a = (None, a')) <->
  NoDup (ID <$> ds) /\ forall k, k ∈ ID <$> ds -> freeEnabledSlot a k.
Proof.
  revert a. induction ds as [|d ds IH]; intros a.
  - split; [|by eexists]. intros _. split; [constructor|].
    intros k Hk. by apply elem_of_nil in Hk.
  - rewrite fmap_cons. cbn [startContainer_loop]. split.
    + intros [a' Hloop].
      destruct (startContainer_inner c (ID d) a) as [[cause|] a1] eqn:Hin; [done|].
      apply startContainer_inner_ok in Hin as (s & Hs & He & Hc & ->).
      destruct (proj1 (IH _) (ex_intro _ a' Hloop)) as [Hnd Hfree].
      assert (Hnotin : ID d ∉ ID <$> ds).
      { intros Hd. destruct (Hfree _ Hd) as (s' & Hs' & _ & Hc').
        simpl in Hs'. rewrite lookup_insert_eq in Hs'. by inversion Hs'; subst s'. }
      split; [by constructor|].
      intros k [->|Hk]%elem_of_cons; [by exists s|].
      destruct (Hfree _ Hk) as (s' & Hs' & He' & Hc'). simpl in Hs'.
      rewrite lookup_insert_ne in Hs' by (intros Heq; apply Hnotin; by rewrite Heq).
      by exists s'.
    + intros [[Hnotin Hnd]%NoDup_cons Hfree].
      destruct (Hfree (ID d)) as (s & Hs & He & Hc); [by left|].
      rewrite (startContainer_inner_free c _ a s) by done.
      apply IH. split; [done|]. intros k Hk.
      destruct (Hfree k) as (s' & Hs' & He' & Hc'); [by right|].
      exists s'. simpl.
      rewrite lookup_insert_ne by (intros Heq; apply Hnotin; by rewrite Heq). done.
Qed.

Lemma startContainer_ok msg a :
  fst (startContainer msg a) = None <->
  exists a1, startContainer_loop (st_Container msg) (c_Devices (st_Container msg)) a
             = (None, a1) /\
    snd (startContainer msg a) =
      set_containerAllocation
        (insert (c_ID (st_Container msg)) (st_AllocationID msg)) a1.
Proof.
  unfold startContainer.
  destruct (startContainer_loop _ _ a) as [[e|] a1]; simpl.
  - split; [done|]. by intros (? & ? & _).
  - split; [|done]. intros _. by exists a1.
Qed.

(** X13: [startContainer] succeeds exactly when the requested devices
    have pairwise distinct IDs and each has a slot that is enabled and
    holds no container.  It then makes the container the occupant of
    those slots and of no other, records the allocation as its owner,
    leaves the device view alone, and installs the container record,
    unless the container has no device at all: then no record is
    installed. *)
Theorem startContainer_succeeds_iff (msg : StartTaskContainer) (a : agentState) :
  let c := st_Container msg in
  let a' := snd (startContainer msg a) in
  (fst (startContainer msg a) = None <->
     NoDup (ID <$> c_Devices c) /\
     forall d, d ∈ c_Devices c -> freeEnabledSlot a (ID d)) /\
  (fst (startContainer msg a) = None ->
     Devices a' = Devices a /\
     containerAllocation a' = <[c_ID c := st_AllocationID msg]> (containerAllocation a) /\
     containerState a' =
       (if c_Devices c is [] then containerState a
        else <[c_ID c := c]> (containerState a)) /\
     (forall d s, d ∈ c_Devices c -> slotStates a !! ID d = Some s ->
        slotStates a' !! ID d = Some (set_containerID (Some (c_ID c)) s)) /\
     (forall k, k ∉ ID <$> c_Devices c -> slotStates a' !! k = slotStates a !! k)).
Proof.
  intros c a'. subst c a'. split.
  - rewrite startContainer_ok. split.
    + intros (a1 & Hloop & _).
      destruct (proj1 (startContainer_loop_None _ _ _) (ex_intro _ a1 Hloop))
        as [Hnd Hfree].
      split; [done|]. intros d Hd. apply Hfree, list_elem_of_fmap. by exists d.
    + intros [Hnd Hfree].
      destruct (proj2 (startContainer_loop_None (st_Container msg)
                         (c_Devices (st_Container msg)) a)) as [a1 Hloop].
      { split; [done|]. intros k (d & -> & Hd)%list_elem_of_fmap. by apply Hfree. }
      exists a1. split; [done|].
      unfold startContainer. by rewrite Hloop.
  - intros (a1 & Hloop & ->)%startContainer_ok.
    destruct (startContainer_loop_ok _ _ _ _ Hloop) as (Hout & Hother & Hpre & Hrec).
    unfold outsideSlotsAndRecords in Hout. inversion Hout as [[Hi HD Hp He Hdr Hu Hm HA]].
    simpl. rewrite HA. repeat split; try done.
    + intros d s Hd Hs.
      destruct (Hpre (ID d)) as (s' & Hs' & _ & _ & Hnew);
        [apply list_elem_of_fmap; by exists d|].
      congruence.
Qed.

Lemma startContainer_succeeds_iff_witness :
  fst (startContainer (mkStart c1Running "alloc-1") oneGpuAgent) = None /\
  containerAllocation (snd (startContainer (mkStart c1Running "alloc-1") oneGpuAgent))
    = <[ "c1" := "alloc-1" ]> (containerAllocation oneGpuAgent).
Proof.
  destruct (startContainer_succeeds_iff (mkStart c1Running "alloc-1") oneGpuAgent)
    as [Hiff Hok].
  assert (Hnone : fst (startContainer (mkStart c1Running "alloc-1") oneGpuAgent) = None).
  { apply Hiff. split; [vm_compute; apply NoDup_singleton|].
    intros d Hd. apply list_elem_of_singleton in Hd. subst d.
    exists (freshSlot (gpu 0)). by vm_compute. }
  split; [exact Hnone|]. by destruct (Hok Hnone) as (_ & HA & _).
Defined.

(** X14: after a successful [startContainer] for a container that was not
    tracked, the report that the container has terminated, with the same
    devices, restores the slots, the container records and the device
    view as they were before the start; the owner entry of the container
    stays in the container-to-allocation map. *)
Theorem start_then_terminate (msg : StartTaskContainer) (a : agentState) :
  let c := st_Container msg in
  fst (startContainer msg a) = None ->
  containerState a !! c_ID c = None ->
  let a' := containerStateChanged (mkContainer (c_ID c) Terminated (c_Devices c))
              (snd (startContainer msg a)) in
  slotStates a' = slotStates a /\
  containerState a' = containerState a /\
  Devices a' = Devices a /\
  containerAllocation a' = <[c_ID c := st_AllocationID msg]> (containerAllocation a).
Proof.
  intros c Hok Hnew a'. subst a' c.
  apply startContainer_ok in Hok as (a1 & Hloop & ->).
  destruct (startContainer_loop_ok _ _ _ _ Hloop) as (Hout & Hother & Hpre & Hrec).
  unfold outsideSlotsAndRecords in Hout. inversion Hout as [[Hi HD Hp He Hdr Hu Hm HA]].
  set (t := mkContainer (c_ID (st_Container msg)) Terminated
              (c_Devices (st_Container msg))).
  set (b := set_containerAllocation _ a1).
  destruct (containerStateChanged_eq t b) as (HD' & HA' & HC' & HS').
  rewrite HD', HA', HC'.
  split; [|split; [|split]].
  - apply map_eq. intros k. rewrite HS'. subst t b. unfold occupantFor. simpl.
    destruct (decide (k ∈ ID <$> c_Devices (st_Container msg))) as [Hin|Hnin].
    + destruct (Hpre k Hin) as (s & Hs & _ & Hfree & ->). rewrite Hs. simpl.
      f_equal. destruct s. simpl in *. by subst.
    + by apply Hother.
  - subst t b. simpl. rewrite Hrec. destruct (c_Devices (st_Container msg)).
    + by apply delete_id.
    + by rewrite delete_insert_id.
  - done.
  - subst b. simpl. by rewrite HA.
Qed.

Lemma start_then_terminate_witness :
  slotStates (containerStateChanged (mkContainer "c1" Terminated [gpu 0])
                (snd (startContainer (mkStart c1Running "alloc-1") oneGpuAgent)))
  = slotStates oneGpuAgent.
Proof.
  destruct (start_then_terminate (mkStart c1Running "alloc-1") oneGpuAgent)
    as (HS & _); [by vm_compute..|exact HS].
Defined.

Lemma containerStateChanged_effect_witness :
  containerState (containerStateChanged c1Running oneGpuAgent) =
    <[ "c1" := c1Running ]> (containerState oneGpuAgent) /\
  slotStates (containerStateChanged c1Running oneGpuAgent) !! 0 =
    Some (set_containerID (Some "c1") (freshSlot (gpu 0))).
Proof.
  destruct (containerStateChanged_effect c1Running oneGpuAgent)
    as (_ & _ & _ & Hrun & _).
  destruct Hrun as [HC HS]; [discriminate|].
  split; [exact HC|]. apply (HS (gpu 0)); [by left|by vm_compute].
Defined.

(** ** Reconciliation when nothing was lost *)

Lemma map_fold_unchanged `{Countable K} {V B} (f : K -> V -> B -> B) (b : B)
    (m : gmap K V) :
  (forall k v, m !! k = Some v -> f k v b = b) -> map_fold f b m = b.
Proof.
  induction m as [|k v m Hk Hfold IH] using gmap_fold_ind; intros Hstep.
  - by rewrite map_fold_empty.
  - rewrite Hfold, IH.
    + apply Hstep, lookup_insert_eq.
    + intros j w Hj. apply Hstep. rewrite lookup_insert_ne; [done|].
      intros ->. congruence.
Qed.

(** X15: when every container that occupies a device or a slot, has a
    record or has an owner entry was recovered, [clearUnlessRecovered]
    returns without an error, changes nothing and does not persist. *)
Theorem clearUnlessRecovered_nothing_lost {A}
    (recovered : gmap ContainerID A) (a : agentState) :
  (forall d c, Devices a !! d = Some (Some c) -> is_Some (recovered !! c)) ->
  (forall k s c, slotStates a !! k = Some s -> containerID s = Some c ->
     is_Some (recovered !! c)) ->
  (forall c, is_Some (containerState a !! c) -> is_Some (recovered !! c)) ->
  (forall c, is_Some (containerAllocation a !! c) -> is_Some (recovered !! c)) ->
  clearUnlessRecovered recovered a = Some (a, false).
Proof.
  intros HD HS HC HA. unfold clearUnlessRecovered.
  assert (Hdev : clearDevices recovered a = Some (a, false)).
  { unfold clearDevices. apply map_fold_unchanged. intros d o Hd. simpl.
    rewrite Hd. destruct o as [c|]; [|done].
    by destruct (HD d c Hd) as [x ->]. }
  rewrite Hdev. simpl. f_equal.
  assert (Hslots : clearSlots recovered (a, false) = (a, false)).
  { unfold clearSlots. apply map_fold_unchanged. intros k s Hs. simpl in *.
    rewrite Hs. destruct (containerID s) as [c|] eqn:Hc; [|done].
    by destruct (HS k s c Hs Hc) as [x ->]. }
  rewrite Hslots.
  assert (Hrec : clearContainers recovered (a, false) = (a, false)).
  { unfold clearContainers. apply map_fold_unchanged. intros c v Hc.
    by destruct (HC c (mk_is_Some _ _ Hc)) as [x ->]. }
  rewrite Hrec.
  unfold clearAllocations. apply map_fold_unchanged. intros c v Hc.
  by destruct (HA c (mk_is_Some _ _ Hc)) as [x ->].
Qed.

Lemma clearUnlessRecovered_nothing_lost_witness :
  clearUnlessRecovered ({[ "c1" := tt ]} : gmap ContainerID unit) busyAgent =
  Some (busyAgent, false).
Proof.
  apply clearUnlessRecovered_nothing_lost.
  - intros d c Hd. busy Hd. apply lookup_singleton_Some in Hd as [_ Hd].
    inversion Hd; subst c. by exists tt.
  - intros k s c Hs Hc. busy Hs. apply lookup_singleton_Some in Hs as [_ <-].
    simpl in Hc. inversion Hc; subst c. by exists tt.
  - intros c [v Hc]. busy Hc. apply lookup_singleton_Some in Hc as [<- _].
    by exists tt.
  - intros c [v Hc]. busy Hc. apply lookup_singleton_Some in Hc as [<- _].
    by exists tt.
Defined.

(** ** Methods run on a copy *)



(** ** Recovery from an arbitrary snapshot *)

Lemma lookup_foldl_insert_Some `{Countable K} {V X} (key : X -> K) (val : X -> V)
    (l : list X) (m : gmap K V) k v :
  foldl (fun (m : gmap K V) x => <[key x := val x]> m) m l !! k = Some v ->
  (exists x, x ∈ l /\ key x = k /\ val x = v) \/ m !! k = Some v.
Proof.
  revert m. induction l as [|x l IH]; intros m; simpl; [by right|].
  intros [(y & Hy & Hk & Hv)|Hm]%IH.
  - left. exists y. split; [by right|done].
  - destruct (decide (key x = k)) as [Hk|Hk].
    + rewrite Hk, lookup_insert_eq in Hm. inversion Hm. left. exists x.
      split; [by left|done].
    + rewrite lookup_insert_ne in Hm by done. by right.
Qed.

(** X17: from any snapshot whose UUID parses, [newAgentStateFromSnapshot]
    returns an aggregate with the agent-level flags of the snapshot and no
    owner entry.  It keeps every slot under the ID of its device and gives
    every slot the flags: added to the view, enabled by agent and by user
    as the agent was enabled, draining as the agent was; the per-slot
    user setting of the snapshot is not read.  Every device of the
    snapshot has a slot and is in the device view, whether the agent was
    enabled or not, and the view and the slots hold nothing else. *)
Theorem newAgentStateFromSnapshot_shape
    (uuid_Parse : string -> option N) (stored : list Container)
    (s : agentSnapshot) (u : N) :
  uuid_Parse (as_UUID s) = Some u ->
  exists a,
    newAgentStateFromSnapshot uuid_Parse stored s = Some a /\
    uuid a = u /\ containerAllocation a = ∅ /\
    enabled a = as_UserEnabled s /\ draining a = as_UserDraining s /\
    slotsKeyedByDevice a /\
    (forall k sl, slotStates a !! k = Some sl ->
       s_enabled sl = mkSlotEnabled true (as_UserEnabled s) (as_UserEnabled s)
                        (as_UserDraining s) /\
       exists sd, sd ∈ as_Slots s /\ sd_Device sd = device sl /\
                  sd_ContainerID sd = containerID sl) /\
    (forall d o, Devices a !! d = Some o ->
       exists sd, sd ∈ as_Slots s /\ sd_Device sd = d /\ sd_ContainerID sd = o) /\
    (forall sd, sd ∈ as_Slots s ->
       is_Some (slotStates a !! ID (sd_Device sd)) /\
       is_Some (Devices a !! sd_Device sd)).
Proof.
  intros Hparse. unfold newAgentStateFromSnapshot. rewrite Hparse. simpl.
  rewrite (foldl_pair_split
    (fun (S : gmap Z slot) sd =>
       <[ID (sd_Device sd) :=
           mkSlot (sd_Device sd)
             (mkSlotEnabled true (as_UserEnabled s) (as_UserEnabled s)
                (as_UserDraining s))
             (sd_ContainerID sd)]> S)
    (fun (D : gmap Device (option ContainerID)) sd =>
       <[sd_Device sd := sd_ContainerID sd]> D)).
  eexists. split; [reflexivity|]. simpl.
  do 4 (split; [done|]).
  assert (Hslot : forall k sl,
            foldl (fun (S : gmap Z slot) sd =>
                     <[ID (sd_Device sd) :=
                         mkSlot (sd_Device sd)
                           (mkSlotEnabled true (as_UserEnabled s) (as_UserEnabled s)
                              (as_UserDraining s))
                           (sd_ContainerID sd)]> S) ∅ (as_Slots s) !! k = Some sl ->
            exists sd, sd ∈ as_Slots s /\ ID (sd_Device sd) = k /\
              mkSlot (sd_Device sd)
                (mkSlotEnabled true (as_UserEnabled s) (as_UserEnabled s)
                   (as_UserDraining s))
                (sd_ContainerID sd) = sl).
  { intros k sl Hsl.
    apply (lookup_foldl_insert_Some (fun sd => ID (sd_Device sd))
             (fun sd => mkSlot (sd_Device sd)
                          (mkSlotEnabled true (as_UserEnabled s) (as_UserEnabled s)
                             (as_UserDraining s))
                          (sd_ContainerID sd))) in Hsl as [Hsl|Hsl]; [done|].
    by rewrite lookup_empty in Hsl. }
  split; [|split; [|split]].
  - intros k sl (sd & _ & <- & <-)%Hslot. done.
  - intros k sl (sd & Hin & _ & <-)%Hslot. split; [done|]. by exists sd.
  - intros d o Hd.
    apply (lookup_foldl_insert_Some sd_Device sd_ContainerID) in Hd as [Hd|Hd];
      [done|]. by rewrite lookup_empty in Hd.
  - intros sd Hin. split; apply elem_of_dom.
    + rewrite (dom_foldl_insert (fun sd => ID (sd_Device sd))
                 (fun sd => mkSlot (sd_Device sd)
                              (mkSlotEnabled true (as_UserEnabled s) (as_UserEnabled s)
                                 (as_UserDraining s))
                              (sd_ContainerID sd))).
      apply elem_of_union_l, elem_of_list_to_set, list_elem_of_fmap. by exists sd.
    + rewrite (dom_foldl_insert sd_Device sd_ContainerID).
      apply elem_of_union_l, elem_of_list_to_set, list_elem_of_fmap. by exists sd.
Qed.

Lemma newAgentStateFromSnapshot_shape_witness :
  exists a,
    newAgentStateFromSnapshot exampleParse []
      (snapshot exampleString userDisabledAgent) = Some a /\
    enabled a = as_UserEnabled (snapshot exampleString userDisabledAgent).
Proof.
  destruct (newAgentStateFromSnapshot_shape exampleParse []
              (snapshot exampleString userDisabledAgent) (uuid userDisabledAgent))
    as (a & Heq & _ & _ & Hen & _); [by vm_compute|].
  exists a. split; [exact Heq|exact Hen].
Defined.

(** ** The summaries of all slots *)

(** X18: [getSlotsSummary] returns for any aggregate, with exactly one
    entry per slot: the entry under [base/slots/<key>] is the summary of
    the slot kept under that key, and there is no other entry. *)
Theorem getSlotsSummary_entries (base : string) (a : agentState) :
  exists m,
    getSlotsSummary base a = Some m /\
    size m = size (slotStates a) /\
    (forall k, is_Some (slotStates a !! k) ->
       m !! (base +:+ "/slots/" +:+ pretty k) = getSlotSummary k a /\
       is_Some (getSlotSummary k a)) /\
    (forall key v, m !! key = Some v ->
       exists k, key = base +:+ "/slots/" +:+ pretty k /\ is_Some (slotStates a !! k)).
Proof.
  unfold getSlotsSummary.
  assert (Hinj : forall k1 k2 : Z,
            base +:+ "/slots/" +:+ pretty k1 = base +:+ "/slots/" +:+ pretty k2 ->
            k1 = k2).
  { intros k1 k2 Heq. apply String.app_inj in Heq. apply String.app_inj in Heq.
    by apply pretty_Z_inj in Heq. }
  cut (forall S : gmap Z slot, S ⊆ slotStates a ->
         exists m,
           map_fold (fun deviceID (_ : slot) (acc : option (gmap string SlotSummary)) =>
                       summary ← acc;
                       s ← getSlotSummary deviceID a;
                       Some (<[base +:+ "/slots/" +:+ pretty deviceID := s]> summary))
                    (Some ∅) S = Some m /\
           size m = size S /\
           (forall k, is_Some (S !! k) ->
              m !! (base +:+ "/slots/" +:+ pretty k) = getSlotSummary k a /\
              is_Some (getSlotSummary k a)) /\
           (forall key v, m !! key = Some v ->
              exists k, key = base +:+ "/slots/" +:+ pretty k /\ is_Some (S !! k))).
  { intros Hcut. by apply Hcut. }
  intros S. induction S as [|k s S Hk Hfold IH] using gmap_fold_ind; intros Hsub.
  - rewrite map_fold_empty. exists ∅. split; [done|]. split; [done|]. split.
    + intros k [s Hs]. by rewrite lookup_empty in Hs.
    + intros key v Hv. by rewrite lookup_empty in Hv.
  - rewrite Hfold.
    destruct IH as (m & -> & Hsize & Hin & Hout).
    { etrans; [|exact Hsub]. by apply insert_subseteq. }
    assert (Hs : slotStates a !! k = Some s).
    { eapply lookup_weaken; [|exact Hsub]. apply lookup_insert_eq. }
    simpl. unfold getSlotSummary at 1. rewrite Hs. simpl.
    eexists. split; [reflexivity|].
    assert (Hnew : m !! (base +:+ "/slots/" +:+ pretty k) = None).
    { destruct (m !! (base +:+ "/slots/" +:+ pretty k)) as [v|] eqn:Hv; [|done].
      destruct (Hout _ _ Hv) as (k' & Heq & [s' Hs']). apply Hinj in Heq. congruence. }
    split; [by rewrite !map_size_insert_None, Hsize|]. split.
    + intros j Hj. destruct (decide (j = k)) as [->|Hne].
      * rewrite lookup_insert_eq. unfold getSlotSummary. rewrite Hs. simpl. eauto.
      * rewrite lookup_insert_ne by (intros Heq; by apply Hinj in Heq).
        apply Hin. by rewrite lookup_insert_ne in Hj.
    + intros key v Hv.
      destruct (decide (key = base +:+ "/slots/" +:+ pretty k)) as [->|Hne].
      * exists k. split; [done|]. rewrite lookup_insert_eq. eauto.
      * rewrite lookup_insert_ne in Hv by done.
        destruct (Hout _ _ Hv) as (j & Heq & Hj). exists j. split; [done|].
        rewrite lookup_insert_ne; [done|]. intros <-. destruct Hj. congruence.
Qed.

(** ** Patching all slots *)

Ltac busy_goal :=
  unfold busyAgent;
  cbn [slotStates Devices containerState containerAllocation].

Lemma patchedSlot_fields msg s :
  device (patchedSlot msg s) = device s /\
  containerID (patchedSlot msg s) = containerID s /\
  agentEnabled (s_enabled (patchedSlot msg s)) = agentEnabled (s_enabled s) /\
  userEnabled (s_enabled (patchedSlot msg s)) =
    default (userEnabled (s_enabled s)) (pa_enabled msg) /\
  se_draining (s_enabled (patchedSlot msg s)) =
    default (se_draining (s_enabled s)) (pa_drain msg).
Proof.
  unfold patchedSlot, patchFlags. simpl.
  destruct (pa_enabled msg) as [e|], (pa_drain msg) as [dr|];
    destruct s as [d [ad ae ue sd] c]; simpl;
    repeat match goal with b : bool |- _ => destruct b end; by repeat split.
Qed.

(** X19: on an aggregate whose view agrees with its slots, and for
    whatever order the slots are visited in, [patchAllSlotsState] returns;
    it gives every slot the flags of the message, keeping the device, the
    occupant and the agent's flag of each slot, and leaves the view in
    agreement with the slots; it changes no record and no owner entry;
    it returns exactly one summary per slot, filed under the decimal ID
    of the slot, with the patched flags; and it publishes, in the order
    of the visit, one forced release for each slot that holds a container
    and is left neither enabled nor draining, and nothing else. *)
Theorem patchAllSlotsState_effect
    (msg : patchAllSlotsStateMsg) (a : agentState) (it : list Z) :
  viewInSync a ->
  it ≡ₚ (map_to_list (slotStates a)).*1 ->
  exists result a' ev,
    patchAllSlotsStateIn it msg a = Some (result, a', ev) /\
    viewInSync a' /\
    slotStates a' = patchedSlot msg <$> slotStates a /\
    (forall s,
       device (patchedSlot msg s) = device s /\
       containerID (patchedSlot msg s) = containerID s /\
       agentEnabled (s_enabled (patchedSlot msg s)) = agentEnabled (s_enabled s) /\
       userEnabled (s_enabled (patchedSlot msg s)) =
         default (userEnabled (s_enabled s)) (pa_enabled msg) /\
       se_draining (s_enabled (patchedSlot msg s)) =
         default (se_draining (s_enabled s)) (pa_drain msg)) /\
    containerState a' = containerState a /\
    containerAllocation a' = containerAllocation a /\
    size result = size (slotStates a) /\
    (forall k s, slotStates a !! k = Some s ->
       result !! pretty k =
       Some (mkSlotSummary (pretty k) (device s)
               (slotEnabled_enabled (s_enabled (patchedSlot msg s)))
               (c ← containerID s; containerState a !! c)
               (se_draining (s_enabled (patchedSlot msg s))))) /\
    ev = it ≫= patchedEvents msg a /\
    (forall e, e ∈ ev <->
       exists k s c,
         slotStates a !! k = Some s /\ containerID s = Some c /\
         slotEnabled_enabled (s_enabled (patchedSlot msg s)) = false /\
         se_draining (s_enabled (patchedSlot msg s)) = false /\
         e = mkRelease (default "" (containerAllocation a !! c)) "slot disabled" true).
Proof.
  intros Hsync Hperm.
  assert (Hnd : NoDup it) by (rewrite Hperm; apply NoDup_fst_map_to_list).
  assert (Hkeys : forall k, k ∈ it <-> is_Some (slotStates a !! k)).
  { intros k. by rewrite Hperm, elem_of_keys. }
  destruct (patchAllSlotsState_loop msg it ∅ a [] Hsync Hnd)
    as (result & a' & Hloop & Hsync' & HCS & HCA & Hslots & Hres & Hkeep).
  { intros k Hk. by apply Hkeys. }
  exists result, a', (it ≫= patchedEvents msg a).
  split; [exact Hloop|]. split; [done|]. split.
  { apply map_eq. intros k. rewrite Hslots, lookup_fmap.
    destruct (decide (k ∈ it)) as [Hin|Hnin]; [done|].
    destruct (slotStates a !! k) as [s|] eqn:Hs; [|done].
    destruct Hnin. apply Hkeys. eauto. }
  split; [apply patchedSlot_fields|]. split; [done|]. split; [done|].
  split; [|split; [|split; [done|]]].
  - rewrite <- size_dom.
    assert (Hdom : dom result = list_to_set (pretty <$> it)).
    { apply set_eq. intros key. rewrite elem_of_dom, elem_of_list_to_set. split.
      - intros [v Hv]. destruct (decide (key ∈ (pretty <$> it : list string)))
          as [Hin|Hnin]; [done|].
        rewrite Hkeep, lookup_empty in Hv by done. done.
      - intros (k & -> & Hk)%list_elem_of_fmap.
        destruct (proj1 (Hkeys k) Hk) as [s Hs]. rewrite (Hres k s Hk Hs). eauto. }
    rewrite Hdom, size_list_to_set by (by apply (NoDup_fmap_2 pretty)).
    by rewrite length_fmap, Hperm, length_fmap, length_map_to_list.
  - intros k s Hs. apply Hres; [|done]. apply Hkeys. eauto.
  - intros e. rewrite list_elem_of_bind. split.
    + intros (k & He & Hk). unfold patchedEvents in He.
      destruct (slotStates a !! k) as [s|] eqn:Hs; [|by apply elem_of_nil in He].
      unfold settleEvents in He.
      destruct (slotEnabled_enabled (s_enabled (patchedSlot msg s))) eqn:Hen;
        [by apply elem_of_nil in He|].
      destruct (se_draining (s_enabled (patchedSlot msg s))) eqn:Hdr;
        [by apply elem_of_nil in He|].
      simpl in He. destruct (patchedSlot_fields msg s) as (_ & Hc & _).
      rewrite Hc in He. destruct (containerID s) as [c|] eqn:Hcs;
        [|by apply elem_of_nil in He].
      apply list_elem_of_singleton in He. by exists k, s, c.
    + intros (k & s & c & Hs & Hc & Hen & Hdr & ->). exists k. split.
      * unfold patchedEvents, settleEvents. rewrite Hs, Hen, Hdr. simpl.
        destruct (patchedSlot_fields msg s) as (_ & -> & _). rewrite Hc.
        by apply list_elem_of_singleton.
      * apply Hkeys. eauto.
Qed.

Lemma patchAllSlotsState_effect_witness :
  exists result a' ev,
    patchAllSlotsState (mkPatchAll (Some false) None) busyAgent =
      Some (result, a', ev) /\
    ev = [mkRelease "alloc-1" "slot disabled" true].
Proof.
  destruct (patchAllSlotsState_effect (mkPatchAll (Some false) None) busyAgent
              (map_to_list (slotStates busyAgent)).*1)
    as (result & a' & ev & Heq & _ & _ & _ & _ & _ & _ & _ & Hev & _).
  - split; [|split; [|split]].
    + intros k s Hs. busy Hs. by apply lookup_singleton_Some in Hs as [<- <-].
    + intros d. busy_goal. split.
      * intros [o Ho]. apply lookup_singleton_Some in Ho as [<- _].
        eexists. by split; [apply lookup_singleton_eq|].
      * intros (s & Hs & Hd & _). apply lookup_singleton_Some in Hs as [_ <-].
        simpl in Hd. subst d. rewrite lookup_singleton_eq. eauto.
    + intros k s Hs. busy Hs. by apply lookup_singleton_Some in Hs as [_ <-].
    + intros k s Hs. busy Hs. by apply lookup_singleton_Some in Hs as [_ <-].
  - done.
  - exists result, a', ev. split; [exact Heq|]. rewrite Hev. by vm_compute.
Defined.

(** ** Idleness after an allocation, and the contents of a snapshot *)

(** X20: after [allocateFreeDevices], for any non-negative request and
    any order of the visit, the agent is not idle, whether the allocation
    succeeded or failed: a failed or zero-slot allocation leaves a record
    with no device, a successful one an occupied device. *)
Theorem allocateFreeDevices_not_idle
    (it : list (Device * option ContainerID)) (k : Z) (cid : ContainerID)
    (a : agentState) :
  0 <= k ->
  idle (snd (allocateFreeDevicesIn it k cid a)) = false.
Proof.
  intros Hk. rewrite allocateFreeDevicesIn_eq by done. simpl.
  set (ds := take (Z.to_nat k) (freeIn it)).
  destruct (Z.eqb_spec (Z.of_nat (length ds)) k) as [Hlen|Hlen]; simpl.
  - match goal with |- idle ?x = false => destruct (idle x) eqn:Hidle; [|done] end.
    apply idle_spec in Hidle as [Hview Hrec]. simpl in Hview, Hrec.
    destruct ds as [|d ds'] eqn:Hds.
    + by destruct (Hrec cid _ (lookup_insert_eq _ _ _)).
    + specialize (Hview d (Some cid)). rewrite lookup_foldl_claim in Hview.
      rewrite decide_True in Hview by (by left). by specialize (Hview eq_refl).
  - match goal with |- idle ?x = false => destruct (idle x) eqn:Hidle; [|done] end.
    apply idle_spec in Hidle as [_ Hrec]. simpl in Hrec.
    by destruct (Hrec cid _ (lookup_insert_eq _ _ _)).
Qed.

Lemma allocateFreeDevices_not_idle_witness :
  idle oneGpuAgent = true /\
  idle (snd (allocateFreeDevices 2 "c1" oneGpuAgent)) = false.
Proof.
  split; [by vm_compute|].
  apply (allocateFreeDevices_not_idle (map_to_list (Devices oneGpuAgent)) 2). lia.
Defined.

(** X21: the snapshot of an aggregate lists each slot exactly once, with
    its device, the user's setting and the occupant of the slot, and each
    tracked container ID exactly once; as the agent's user setting it
    stores the agent's current enabled and draining flags. *)
Theorem snapshot_contents (uuid_String : N -> string) (a : agentState) :
  as_Slots (snapshot uuid_String a) ≡ₚ
    (fun s => mkSlotData (device s) (userEnabled (s_enabled s)) (containerID s))
      <$> (map_to_list (slotStates a)).*2 /\
  length (as_Slots (snapshot uuid_String a)) = size (slotStates a) /\
  NoDup (as_Containers (snapshot uuid_String a)) /\
  (forall c, c ∈ as_Containers (snapshot uuid_String a) <->
     is_Some (containerState a !! c)) /\
  as_UserEnabled (snapshot uuid_String a) = enabled a /\
  as_UserDraining (snapshot uuid_String a) = draining a /\
  as_UUID (snapshot uuid_String a) = uuid_String (uuid a).
Proof.
  assert (Hperm : as_Slots (snapshot uuid_String a) ≡ₚ
            (fun s => mkSlotData (device s) (userEnabled (s_enabled s)) (containerID s))
              <$> (map_to_list (slotStates a)).*2).
  { unfold snapshot. cbn [as_Slots]. generalize (slotStates a). intros m.
    induction m as [|k s m Hk Hfold IH] using gmap_fold_ind.
    - by rewrite map_fold_empty, map_to_list_empty.
    - rewrite Hfold, IH, map_to_list_insert by done. simpl.
      by rewrite Permutation_app_comm. }
  split; [exact Hperm|]. split.
  { by rewrite Hperm, !length_fmap, length_map_to_list. }
  split; [apply NoDup_fst_map_to_list|].
  split; [intros c; apply elem_of_keys|done].
Qed.

(** ** The kinds of validation failure *)

Lemma fold_differs_spec (ours theirs : gmap Z Device) :
  map_fold (fun k (d : Device) (found : bool) =>
              found || negb (bool_decide (d = default zeroDevice (theirs !! k))))
           false ours = true <->
  exists k d, ours !! k = Some d /\ d <> default zeroDevice (theirs !! k).
Proof.
  induction ours as [|k d m Hk Hfold IH] using gmap_fold_ind.
  - rewrite map_fold_empty. split; [done|]. intros (k & d & Hd & _).
    by rewrite lookup_empty in Hd.
  - rewrite Hfold, orb_true_iff, IH, negb_true_iff, bool_decide_eq_false. split.
    + intros [(k' & d' & Hd' & Hne)|Hne].
      * exists k', d'. split; [|done]. rewrite lookup_insert_ne; [done|].
        intros ->. congruence.
      * exists k, d. by rewrite lookup_insert_eq.
    + intros (k' & d' & Hd' & Hne). destruct (decide (k' = k)) as [->|Hkk].
      * rewrite lookup_insert_eq in Hd'. inversion Hd'; subst d'. by right.
      * rewrite lookup_insert_ne in Hd' by done. left. by exists k', d'.
Qed.

(** X22: as long as no slot holds the all-zero device,
    [checkAgentStartedDevicesMatch] never returns its last error, the one
    the source marks as not supposed to happen: with as many distinct
    reported IDs as slots, any difference is reported as changed device
    properties. *)
Theorem devicesChanged_unreachable (devices : list Device) (a : agentState) :
  (forall k s, slotStates a !! k = Some s -> device s <> zeroDevice) ->
  fst (checkAgentStartedDevicesMatch devices a) <> Some DevicesChanged /\
  (fst (checkAgentStartedDevicesMatch devices a) = Some DevicePropertiesChanged <->
     size (slotStates a) = size (theirDevices devices) /\
     ourDevices a <> theirDevices devices).
Proof.
  intros Hzero. unfold checkAgentStartedDevicesMatch.
  assert (Hsize : size (ourDevices a) = size (slotStates a)).
  { by rewrite ourDevices_eq, map_size_fmap. }
  rewrite <- Hsize.
  destruct (Nat.eqb_spec (size (ourDevices a)) (size (theirDevices devices)))
    as [Hsz|Hsz]; simpl.
  - case_bool_decide as Heq; simpl.
    + split; [done|]. split; [done|]. by intros [_ ?].
    + destruct (map_fold _ false (ourDevices a)) eqn:Hfold; simpl.
      * split; [done|]. by split.
      * exfalso. apply Heq. apply map_subseteq_size_eq; [|lia].
        apply map_subseteq_spec. intros k d Hd.
        destruct (decide (d = default zeroDevice (theirDevices devices !! k)))
          as [Hsame|Hdiff].
        -- destruct (theirDevices devices !! k) as [d'|] eqn:Ht; simpl in Hsame;
             [by subst|].
           rewrite ourDevices_eq, lookup_fmap in Hd.
           destruct (slotStates a !! k) as [s|] eqn:Hs; [|done].
           simpl in Hd. inversion Hd; subst d. by destruct (Hzero k s Hs).
        -- assert (Htrue : map_fold
                     (fun k (d : Device) (found : bool) =>
                        found || negb (bool_decide
                                         (d = default zeroDevice
                                                (theirDevices devices !! k))))
                     false (ourDevices a) = true).
           { apply fold_differs_spec. by exists k, d. }
           congruence.
  - split; [done|]. split; [done|]. by intros [? _].
Qed.

Lemma devicesChanged_unreachable_witness :
  fst (checkAgentStartedDevicesMatch [gpu 1] oneGpuAgent)
  = Some DevicePropertiesChanged.
Proof.
  destruct (devicesChanged_unreachable [gpu 1] oneGpuAgent) as [_ Hiff].
  - intros k s Hs Hz.
    assert (Hl : map_to_list (slotStates oneGpuAgent) = [(0, freshSlot (gpu 0))])
      by (by vm_compute).
    apply elem_of_map_to_list in Hs. rewrite Hl in Hs.
    apply list_elem_of_singleton in Hs. inversion Hs; subst. discriminate Hz.
  - apply Hiff. split; [by vm_compute|]. intros Heq.
    assert (Hl : ourDevices oneGpuAgent !! 0 = theirDevices [gpu 1] !! 0)
      by (by rewrite Heq).
    vm_compute in Hl. discriminate Hl.
Defined.

(** The last error does occur when a slot holds the all-zero device and
    the report has another ID in its place. *)
Example devicesChanged_with_zero_device :
  fst (checkAgentStartedDevicesMatch [gpu 5]
         (fst (agentStarted [zeroDevice] (newAgentState "agent" 0 7%N))))
  = Some DevicesChanged.
Proof. by vm_compute. Qed.
